(** * Code Doctor: flashcard mastery engine and diagnosis request pipeline

    A shallow embedding of the stateful core of the application:
    - [src/App.tsx]: [handleDiagnose] (flashcard ingestion), [handleUpdateCard],
      [clearMasteredCards];
    - [src/components/FlashcardReview.tsx]: the review session
      ([activeCards], [currentCard], [handleCheck], [handleNext]);
    - [src/services/geminiService.ts]: [cleanCode] and the retry loop of
      [analyzeCode].

    React state is modelled by explicit state passing: a handler that calls
    [setFlashcards (prev => f prev)] is the function [f] on the collection. *)

From Stdlib Require Import ZArith NArith Arith Bool String Ascii List Lia.
From Stdlib Require Decimal DecimalNat DecimalN DecimalFacts.
From Equations Require Import Equations.
Import ListNotations.

Set Warnings "-register-all".

(* ===================================================================== *)
(** ** JavaScript strings *)
(* ===================================================================== *)

(** A JavaScript string is a sequence of UTF-16 code units. *)
Definition jsstring := list N.

(** ASCII literals, for readable examples. *)
Definition js (s : string) : jsstring :=
  map N_of_ascii (list_ascii_of_string s).

(** [a === b] on strings: code unit by code unit, hence case-sensitive. *)
Fixpoint streq (a b : jsstring) : bool :=
  match a, b with
  | [], [] => true
  | x :: a', y :: b' => N.eqb x y && streq a' b'
  | _, _ => false
  end.

(** The ECMAScript [WhiteSpace] and [LineTerminator] code points. Both the
    regular expression class [\s] and [String.prototype.trim] use this set. *)
Definition isWhiteSpace (c : N) : bool :=
  match c with
  | 9 | 10 | 11 | 12 | 13 | 32 | 160 | 5760
  | 8192 | 8193 | 8194 | 8195 | 8196 | 8197 | 8198 | 8199 | 8200 | 8201 | 8202
  | 8232 | 8233 | 8239 | 8287 | 12288 | 65279 => true
  | _ => false
  end%N.

Fixpoint trimStart (s : jsstring) : jsstring :=
  match s with
  | [] => []
  | c :: r => if isWhiteSpace c then trimStart r else s
  end.

Definition trimEnd (s : jsstring) : jsstring :=
  List.rev (trimStart (List.rev s)).

(** [str.trim()] *)
Definition trim (s : jsstring) : jsstring := trimEnd (trimStart s).

(** [str.replace(/\s+/g, '')]: every maximal run of white space is replaced
    by the empty string, i.e. every white space code unit is dropped. *)
Fixpoint replace_ws_runs (s : jsstring) : jsstring :=
  match s with
  | [] => []
  | c :: r => if isWhiteSpace c then replace_ws_runs r else c :: replace_ws_runs r
  end.

(** [str.replace(/\u00A0/g, ' ')]: code unit 160 becomes a space. *)
Definition replace_nbsp (s : jsstring) : jsstring :=
  map (fun c => if N.eqb c 160 then 32%N else c) s.

(** [Number.prototype.toString] on a non-negative integer below 1e21: its
    decimal digits. 48 is the code unit of the digit zero. *)
Fixpoint Number_toString (d : Decimal.uint) : jsstring :=
  match d with
  | Decimal.Nil => []
  | Decimal.D0 r => 48%N :: Number_toString r
  | Decimal.D1 r => 49%N :: Number_toString r
  | Decimal.D2 r => 50%N :: Number_toString r
  | Decimal.D3 r => 51%N :: Number_toString r
  | Decimal.D4 r => 52%N :: Number_toString r
  | Decimal.D5 r => 53%N :: Number_toString r
  | Decimal.D6 r => 54%N :: Number_toString r
  | Decimal.D7 r => 55%N :: Number_toString r
  | Decimal.D8 r => 56%N :: Number_toString r
  | Decimal.D9 r => 57%N :: Number_toString r
  end.

(** The value a call evaluates to, as far as this development needs it. *)
Inductive JsValue :=
| Undefined
| Num (n : Z).

(* ===================================================================== *)
(** ** Data model ([src/types.ts]) *)
(* ===================================================================== *)

Inductive CardStatus := New | Learning | Critical | Mastered.

Definition status_eqb (a b : CardStatus) : bool :=
  match a, b with
  | New, New | Learning, Learning | Critical, Critical | Mastered, Mastered => true
  | _, _ => false
  end.

Record FlashcardData := mkData {
  concept : jsstring;
  frontCode : jsstring;
  errorHighlight : option jsstring;
  backCode : jsstring;
  explanation : jsstring
}.

(** [stats]; the counters are JavaScript numbers holding integers. *)
Record Stats := mkStats {
  correctStreak : Z;
  incorrectCount : Z;
  status : CardStatus
}.

(** [interface Flashcard extends FlashcardData] *)
Record Flashcard := mkCard {
  data : FlashcardData;
  id : jsstring;
  stats : Stats
}.

(** How a call completes: with a value, or by throwing [new Error(msg)]. *)
Inductive Completion (A : Type) :=
| Normal (a : A)
| Throw (msg : string).
Arguments Normal {A} a.
Arguments Throw {A} msg.

(* ===================================================================== *)
(** ** [App.tsx]: the flashcard collection *)
(* ===================================================================== *)

Module App.

(** The body of the [map] callback of [handleUpdateCard], lines 97-116:
    [newStats] after the answer. *)
Definition newStats (isCorrect : bool) (s : Stats) : Stats :=
  if isCorrect then
    let streak := (correctStreak s + 1)%Z in
    {| correctStreak := streak;
       incorrectCount := incorrectCount s;
       status := if (3 <=? streak)%Z then Mastered else Learning |}
  else
    let misses := (incorrectCount s + 1)%Z in
    {| correctStreak := 0;
       incorrectCount := misses;
       status := if (3 <=? misses)%Z then Critical else status s |}.

(** [prev => prev.map(card => ...)], the state update of [handleUpdateCard]. *)
Definition handleUpdateCard (cardId : jsstring) (isCorrect : bool)
    (prev : list Flashcard) : list Flashcard :=
  map (fun card =>
         if negb (streq (id card) cardId) then card
         else {| data := data card; id := id card;
                 stats := newStats isCorrect (stats card) |})
      prev.

(** The handler seen as a call. Its body contains no [throw] and its return
    type is [void]: it always completes normally, with the updated state. *)
Definition handleUpdateCard_call (cardId : jsstring) (isCorrect : bool)
    (prev : list Flashcard) : Completion (list Flashcard) :=
  Normal (handleUpdateCard cardId isCorrect prev).

(** [c => c.stats.status !== 'mastered'] *)
Definition notMastered (c : Flashcard) : bool :=
  negb (status_eqb (status (stats c)) Mastered).

(** [c => c.stats.status === 'mastered'], the cards the specification asks
    [purgeMastered] to remove. *)
Definition isMastered (c : Flashcard) : bool :=
  status_eqb (status (stats c)) Mastered.

(** What [clearMasteredCards] leaves behind: the next state of the
    collection, the two counts of its log line
    ("Count reduced from [countBefore] to [flashcards.length]", where
    [flashcards] is still the array of the current render), and the value the
    call evaluates to. *)
Record Cleared := mkCleared {
  nextFlashcards : list Flashcard;
  loggedBefore : nat;
  loggedAfter : nat;
  returned : JsValue
}.

Definition clearMasteredCards (flashcards : list Flashcard) : Cleared :=
  let countBefore := length flashcards in
  {| nextFlashcards := filter notMastered flashcards;
     loggedBefore := countBefore;
     loggedAfter := length flashcards;
     returned := Undefined |}.

(** [array.map((data, index) => ...)] *)
Fixpoint mapi_from {A B : Type} (f : A -> nat -> B) (index : nat) (l : list A)
    : list B :=
  match l with
  | [] => []
  | x :: r => f x index :: mapi_from f (S index) r
  end.

Definition mapi {A B : Type} (f : A -> nat -> B) (l : list A) : list B :=
  mapi_from f 0 l.

(** The template literal [`${Date.now()}-${index}`]; 45 is the hyphen. *)
Definition cardId (now : N) (index : nat) : jsstring :=
  Number_toString (N.to_uint now) ++ 45%N :: Number_toString (Nat.to_uint index).

Definition freshStats : Stats :=
  {| correctStreak := 0; incorrectCount := 0; status := New |}.

(** Lines 62-70. [Date.now()] is evaluated once per draft, inside the [map]
    callback: [clock index] is the time it returns for the draft at [index]. *)
Definition newCards (clock : nat -> N) (drafts : list FlashcardData)
    : list Flashcard :=
  mapi (fun d index =>
          {| data := d; id := cardId (clock index) index; stats := freshStats |})
       drafts.

(** Lines 60-75 of [handleDiagnose]: the collection after a diagnosis whose
    optional field [generatedFlashcards] is [drafts]. *)
Definition ingest (clock : nat -> N) (generatedFlashcards : option (list FlashcardData))
    (prev : list Flashcard) : list Flashcard :=
  match generatedFlashcards with
  | Some (d :: ds) => prev ++ newCards clock (d :: ds)
  | _ => prev
  end.

End App.

(* ===================================================================== *)
(** ** [FlashcardReview.tsx]: the review session *)
(* ===================================================================== *)

Module Review.

(** The prop [cards] (the collection owned by [App]) together with the three
    [useState] cells of the component. [showResult] is ['correct'] ([Some true]),
    ['incorrect'] ([Some false]) or [null]. *)
Record Session := mkSession {
  cards : list Flashcard;
  currentIndex : nat;
  userInput : jsstring;
  showResult : option bool
}.

(** Line 38, evaluated on every render. *)
Definition activeCards (cs : list Flashcard) : list Flashcard :=
  filter App.notMastered cs.

(** Line 40: [activeCards[currentIndex]], [undefined] out of range. *)
Definition currentCard (s : Session) : option Flashcard :=
  nth_error (activeCards (cards s)) (currentIndex s).

(** What the component renders: the "completed" panel (line 48), nothing
    (line 68, [if (!currentCard) return null]) or the current card. *)
Inductive View :=
| Completed
| Blank
| Showing (card : Flashcard).

Definition render (s : Session) : View :=
  match activeCards (cards s) with
  | [] => Completed
  | _ :: _ =>
      match currentCard s with
      | None => Blank
      | Some card => Showing card
      end
  end.

(** Line 72. *)
Definition normalize (str : jsstring) : jsstring := trim (replace_ws_runs str).

(** The comparison as the specification words it: both texts with all white
    space characters removed. *)
Definition stripAllWhitespace (str : jsstring) : jsstring :=
  filter (fun c => negb (isWhiteSpace c)) str.

(** Line 73: [normalize(userInput) === normalize(currentCard.backCode)]. *)
Definition isCorrect (input code : jsstring) : bool :=
  streq (normalize input) (normalize code).

(** The effect of lines 42-46, run after a render whose dependencies
    [currentIndex] and [activeCards.length] differ from the previous ones. *)
Definition resetOnChange (before after : Session) : Session :=
  if Nat.eqb (currentIndex before) (currentIndex after)
     && Nat.eqb (length (activeCards (cards before)))
                (length (activeCards (cards after)))
  then after
  else {| cards := cards after; currentIndex := currentIndex after;
          userInput := []; showResult := None |}.

(** Lines 70-79. The handler exists only in a render that got past line 68,
    i.e. that shows a card. [onUpdateCard] is [App.handleUpdateCard]. *)
Definition handleCheck (s : Session) : option Session :=
  match render s with
  | Showing card =>
      let ok := isCorrect (userInput s) (backCode (data card)) in
      Some (resetOnChange s
              {| cards := App.handleUpdateCard (id card) ok (cards s);
                 currentIndex := currentIndex s;
                 userInput := userInput s;
                 showResult := Some ok |})
  | _ => None
  end.

(** Lines 81-90. The comparison is on JavaScript numbers, so
    [activeCards.length - 1] is not truncated at zero. *)
Definition nextIndex (index len : nat) : nat :=
  if (Z.of_nat index <? Z.of_nat len - 1)%Z then index + 1 else 0.

Definition handleNext (s : Session) : option Session :=
  match render s with
  | Showing _ =>
      Some {| cards := cards s;
              currentIndex :=
                nextIndex (currentIndex s) (length (activeCards (cards s)));
              userInput := [];
              showResult := None |}
  | _ => None
  end.

(** What the user can do. The text field is enabled and the check is
    offered (button, or Enter in the field) while [showResult] is [null];
    the "next" button is rendered once a result is shown. *)
Inductive Action :=
| TypeAnswer (text : jsstring)
| Check
| Next.

Definition step (s : Session) (a : Action) : option Session :=
  match a, showResult s with
  | TypeAnswer text, None =>
      match render s with
      | Showing _ =>
          Some {| cards := cards s; currentIndex := currentIndex s;
                  userInput := text; showResult := None |}
      | _ => None
      end
  | Check, None => handleCheck s
  | Next, Some _ => handleNext s
  | _, _ => None
  end.

Fixpoint run (s : Session) (actions : list Action) : option Session :=
  match actions with
  | [] => Some s
  | a :: rest =>
      match step s a with
      | Some s' => run s' rest
      | None => None
      end
  end.

(** Opening the review on a collection. *)
Definition open (cs : list Flashcard) : Session :=
  {| cards := cs; currentIndex := 0; userInput := []; showResult := None |}.

(** The session invariant of the specification: the pointer is an index of
    the active subset as recomputed from the current collection. *)
Definition pointerValid (s : Session) : Prop :=
  currentIndex s < length (activeCards (cards s)).

End Review.

(* ===================================================================== *)
(** ** [geminiService.ts]: the diagnosis request pipeline *)
(* ===================================================================== *)

Module Gemini.

(** Line 9. *)
Definition cleanCode (code : jsstring) : jsstring := trim (replace_nbsp code).

(** The values [JSON.parse] produces. *)
Inductive JSON :=
| JNull
| JBool (b : bool)
| JNumber (n : Z)
| JString (s : jsstring)
| JArray (items : list JSON)
| JObject (fields : list (jsstring * JSON)).

(** Property lookup [obj.key] on a parsed object; the last occurrence of a
    duplicated key wins, as in [JSON.parse]. *)
Fixpoint lookupField (key : jsstring) (fields : list (jsstring * JSON))
    : option JSON :=
  match fields with
  | [] => None
  | (k, v) :: rest =>
      match lookupField key rest with
      | Some v' => Some v'
      | None => if streq k key then Some v else None
      end
  end.

Definition getField (key : jsstring) (v : JSON) : option JSON :=
  match v with
  | JObject fields => lookupField key fields
  | _ => None
  end.

(** The shape the specification requires of a usable response: a non-empty
    string [rawError] and a sequence [trace] (possibly empty). *)
Definition hasRequiredFields (v : JSON) : bool :=
  match getField (js "rawError") v, getField (js "trace") v with
  | Some (JString (_ :: _)), Some (JArray _) => true
  | _, _ => false
  end.

(** One call of [ai.models.generateContent]: the promise rejects, or resolves
    to a response whose [text] is a string or [undefined]. *)
Inductive Reply :=
| Rejected (reason : string)
| Resolved (text : option jsstring).

(** The observable effects of the pipeline, in order. *)
Inductive Effect :=
| Request (contents : jsstring)
| Sleep (ms : Z).

Record World := mkWorld {
  requests : nat;
  effects : list Effect
}.

Definition world0 : World := {| requests := 0; effects := [] |}.

Definition maxAttempts : nat := 5.

(** Line 141: [1000 * Math.pow(2, attempts - 1)]. *)
Definition backoff (attempts : nat) : Z :=
  (1000 * 2 ^ (Z.of_nat attempts - 1))%Z.

Definition sleep (ms : Z) (w : World) : World :=
  {| requests := requests w; effects := effects w ++ [Sleep ms] |}.

(** The world once one more request has been sent. *)
Definition afterRequest (prompt : jsstring) (w : World) : World :=
  {| requests := S (requests w); effects := effects w ++ [Request prompt] |}.

Definition failedAfterRetries : string :=
  "Failed to analyze code after multiple attempts. Please try again.".

Definition apiKeyMissing : string :=
  "API Key is missing in environment variables.".

Section Pipeline.

(** [process.env.API_KEY]. *)
Variable API_KEY : option jsstring.

(** [JSON.parse]; [None] stands for the [SyntaxError] it throws. *)
Variable JSON_parse : jsstring -> option JSON.

(** The generation collaborator: its reply to the request number [n]
    (counted from 0) carrying the given contents. *)
Variable generateContent : nat -> jsstring -> Reply.

(** The [try] block, lines 104-130. After a successful [JSON.parse], the
    log line 129 reads [parsedData.trace?.length]: the property access on
    [parsedData] throws a [TypeError] when the parsed value is [null] (the
    optional chaining only guards [trace]), and that error is caught like
    the others. *)
Definition attempt (prompt : jsstring) (w : World) : Completion JSON * World :=
  let w1 := afterRequest prompt w in
  match generateContent (requests w) prompt with
  | Rejected reason => (Throw reason, w1)
  | Resolved None => (Throw "Empty response from AI", w1)
  | Resolved (Some []) => (Throw "Empty response from AI", w1)
  | Resolved (Some (c :: text)) =>
      match JSON_parse (c :: text) with
      | Some JNull => (Throw "TypeError", w1)
      | Some parsedData => (Normal parsedData, w1)
      | None => (Throw "SyntaxError", w1)
      end
  end.

(** What an attempt makes of a reply: the parsed value when the text is
    non-empty and parses to a value other than [null], nothing otherwise. *)
Definition parsedReply (r : Reply) : option JSON :=
  match r with
  | Resolved (Some (c :: text)) =>
      match JSON_parse (c :: text) with
      | Some JNull => None
      | parsed => parsed
      end
  | _ => None
  end.

(** The [while] loop with its [catch] block, lines 103-147. *)
Equations? retryLoop (prompt : jsstring) (attempts : nat) (w : World)
    : Completion JSON * World by wf (maxAttempts - attempts) lt :=
  retryLoop prompt attempts w with lt_dec attempts maxAttempts := {
    | right _ := (Throw "Unexpected error in retry loop.", w);
    | left inRange with attempt prompt w := {
        | (Normal parsedData, w1) := (Normal parsedData, w1);
        | (Throw _, w1) with le_dec maxAttempts (S attempts) := {
            | left _ := (Throw failedAfterRetries, w1);
            | right _ :=
                retryLoop prompt (S attempts) (sleep (backoff (S attempts)) w1)
          }
      }
  }.
Proof.
  clear retryLoop. unfold maxAttempts in *.
  do 5 (destruct attempts as [|attempts]; [simpl; lia|]). lia.
Qed.

(** [analyzeCode]: the credential guard of lines 15-20, then the loop on the
    prompt built from the cleaned code. *)
Definition analyzeCode (code : jsstring) : Completion JSON * World :=
  match API_KEY with
  | None | Some [] => (Throw apiKeyMissing, world0)
  | Some (_ :: _) => retryLoop (cleanCode code) 0 world0
  end.

End Pipeline.

(** The effects of five attempts with the delays of the specification
    between them. *)
Definition fullSchedule (prompt : jsstring) : list Effect :=
  [Request prompt; Sleep 1000; Request prompt; Sleep 2000; Request prompt;
   Sleep 4000; Request prompt; Sleep 8000; Request prompt].

(** The delays slept, in order. *)
Fixpoint sleeps (es : list Effect) : list Z :=
  match es with
  | [] => []
  | Sleep ms :: rest => ms :: sleeps rest
  | Request _ :: rest => sleeps rest
  end.

(** *** A reference reading of [JSON.parse] on a fragment of JSON

    [JSON.parse] is a built-in, not code of this repository: the pipeline
    above is parametric in it. For concrete runs, [parseFragment] reads the
    fragment of JSON made of objects, arrays, strings without escape
    sequences, unsigned integers and the three literals, and gives up
    ([None]) on any other text. *)

Fixpoint skipWs (s : jsstring) : jsstring :=
  match s with
  | [] => []
  | c :: r =>
      if (N.eqb c 32 || N.eqb c 9 || N.eqb c 10 || N.eqb c 13)%bool
      then skipWs r else s
  end.

Fixpoint stripPrefix (prefix s : jsstring) : option jsstring :=
  match prefix, s with
  | [], _ => Some s
  | p :: prefix', c :: s' => if N.eqb p c then stripPrefix prefix' s' else None
  | _ :: _, [] => None
  end.

(** The characters of a string literal after its opening quote (34), up to
    the closing quote; a backslash (92) or a control character ends the
    fragment. *)
Fixpoint readString (s : jsstring) : option (jsstring * jsstring) :=
  match s with
  | [] => None
  | c :: r =>
      if N.eqb c 34 then Some ([], r)
      else if (N.eqb c 92 || N.ltb c 32)%bool then None
      else match readString r with
           | Some (str, rest) => Some (c :: str, rest)
           | None => None
           end
  end.

Definition isDigit (c : N) : bool := (N.leb 48 c && N.leb c 57)%bool.

Fixpoint readDigits (acc : Z) (s : jsstring) : Z * jsstring :=
  match s with
  | c :: r =>
      if isDigit c then readDigits (10 * acc + Z.of_N (c - 48))%Z r
      else (acc, s)
  | [] => (acc, [])
  end.

Fixpoint parseValue (fuel : nat) (s : jsstring) : option (JSON * jsstring) :=
  match fuel with
  | O => None
  | S fuel' =>
      match skipWs s with
      | [] => None
      | c :: r =>
          if N.eqb c 34 then
            match readString r with
            | Some (str, rest) => Some (JString str, rest)
            | None => None
            end
          else if N.eqb c 91 then
            match skipWs r with
            | 93%N :: rest => Some (JArray [], rest)
            | _ =>
                match parseItems fuel' r with
                | Some (items, rest) => Some (JArray items, rest)
                | None => None
                end
            end
          else if N.eqb c 123 then
            match skipWs r with
            | 125%N :: rest => Some (JObject [], rest)
            | _ =>
                match parseMembers fuel' r with
                | Some (fields, rest) => Some (JObject fields, rest)
                | None => None
                end
            end
          else if N.eqb c 48 then Some (JNumber 0, r)
          else if isDigit c then
            let (n, rest) := readDigits 0 (c :: r) in Some (JNumber n, rest)
          else
            match stripPrefix (js "null") (c :: r),
                  stripPrefix (js "true") (c :: r),
                  stripPrefix (js "false") (c :: r) with
            | Some rest, _, _ => Some (JNull, rest)
            | _, Some rest, _ => Some (JBool true, rest)
            | _, _, Some rest => Some (JBool false, rest)
            | _, _, _ => None
            end
      end
  end

with parseItems (fuel : nat) (s : jsstring) : option (list JSON * jsstring) :=
  match fuel with
  | O => None
  | S fuel' =>
      match parseValue fuel' s with
      | None => None
      | Some (v, r) =>
          match skipWs r with
          | 93%N :: rest => Some ([v], rest)
          | 44%N :: rest =>
              match parseItems fuel' rest with
              | Some (vs, rest') => Some (v :: vs, rest')
              | None => None
              end
          | _ => None
          end
      end
  end

with parseMembers (fuel : nat) (s : jsstring)
    : option (list (jsstring * JSON) * jsstring) :=
  match fuel with
  | O => None
  | S fuel' =>
      match skipWs s with
      | 34%N :: r =>
          match readString r with
          | None => None
          | Some (key, r1) =>
              match skipWs r1 with
              | 58%N :: r2 =>
                  match parseValue fuel' r2 with
                  | None => None
                  | Some (v, r3) =>
                      match skipWs r3 with
                      | 125%N :: rest => Some ([(key, v)], rest)
                      | 44%N :: rest =>
                          match parseMembers fuel' rest with
                          | Some (fields, rest') => Some ((key, v) :: fields, rest')
                          | None => None
                          end
                      | _ => None
                      end
                  end
              | _ => None
              end
          end
      | _ => None
      end
  end.

Definition parseFragment (text : jsstring) : option JSON :=
  match parseValue (2 * length text + 2) text with
  | Some (v, rest) =>
      match skipWs rest with
      | [] => Some v
      | _ :: _ => None
      end
  | None => None
  end.

End Gemini.

(* ===================================================================== *)
(** ** Sample data used by the concrete runs below *)
(* ===================================================================== *)

Module Samples.

Definition draftA : FlashcardData :=
  {| concept := js "Variable naming"; frontCode := js "1x = 1";
     errorHighlight := Some (js "1x"); backCode := js "x = 1";
     explanation := js "A name cannot start with a digit" |}.

Definition draftB : FlashcardData :=
  {| concept := js "Comparison"; frontCode := js "if x = 1:";
     errorHighlight := None; backCode := js "if x == 1:";
     explanation := js "Equality is tested with two equal signs" |}.

Definition card (d : FlashcardData) (name : string) (streak misses : Z)
    (st : CardStatus) : Flashcard :=
  {| data := d; id := js name;
     stats := {| correctStreak := streak; incorrectCount := misses;
                 status := st |} |}.

(** Two cards as [App.ingest] creates them from one diagnosis. *)
Definition freshPair : list Flashcard :=
  App.ingest (fun _ => 1700000000000%N) (Some [draftA; draftB]) [].

(** [recordAnswer] applied once per answer of a sequence. *)
Definition recordAnswers (cardId : jsstring) (answers : list bool)
    (cs : list Flashcard) : list Flashcard :=
  fold_left (fun acc isCorrect => App.handleUpdateCard cardId isCorrect acc)
            answers cs.

(** A review of [freshPair]: the first card is answered wrongly and the
    second correctly, three rounds in a row, so the last check masters the
    second card while the pointer is on it. *)
Definition reviewRounds : list Review.Action :=
  let wrong := [Review.TypeAnswer (js "x"); Review.Check; Review.Next] in
  let right := [Review.TypeAnswer (js "if x==1:"); Review.Check] in
  wrong ++ right ++ [Review.Next] ++
  wrong ++ right ++ [Review.Next] ++
  wrong ++ right.

End Samples.

(* ===================================================================== *)
(** ** String built-ins used by the components *)
(* ===================================================================== *)

Module Text.

(** [s.includes(sub)]: [sub] starts at some position of [s]. *)
Fixpoint includes (sub s : jsstring) : bool :=
  match Gemini.stripPrefix sub s with
  | Some _ => true
  | None =>
      match s with
      | [] => false
      | _ :: r => includes sub r
      end
  end.

Definition inspect {A : Type} (a : A) : {b : A | a = b} := exist _ a eq_refl.

(** [s.split(sep)] for a non-empty separator [p :: sep]: scan from the left;
    where the separator starts, close the current part and go on after the
    separator; [cur] holds the current part, last code unit first. *)
Equations? splitFrom (p : N) (sep cur s : jsstring) : list jsstring
    by wf (length s) lt :=
  splitFrom p sep cur [] := [List.rev cur];
  splitFrom p sep cur (c :: r)
    with inspect (Gemini.stripPrefix (p :: sep) (c :: r)) := {
      | exist _ (Some rest) _ := List.rev cur :: splitFrom p sep [] rest;
      | exist _ None _ := splitFrom p sep (c :: cur) r
    }.
Proof.
  clear splitFrom. simpl in e.
  destruct (N.eqb p c); [|discriminate].
  revert r e. induction sep as [|q sep IH]; intros r e; simpl in e.
  - injection e as <-. simpl. lia.
  - destruct r as [|d r]; [discriminate|].
    destruct (N.eqb q d); [|discriminate].
    apply IH in e. simpl in *. lia.
Qed.

(** [s.split(sep)]; the empty separator splits between code units. *)
Definition split (sep s : jsstring) : list jsstring :=
  match sep with
  | [] => map (fun c => [c]) s
  | p :: sep' => splitFrom p sep' [] s
  end.

(** [s.substring(a, b)]: both bounds are clamped to the length and swapped
    when [a > b]. *)
Definition substring (s : jsstring) (a b : nat) : jsstring :=
  let a' := Nat.min a (length s) in
  let b' := Nat.min b (length s) in
  firstn (Nat.max a' b' - Nat.min a' b') (skipn (Nat.min a' b') s).

(** [s.substring(a)] *)
Definition substringFrom (s : jsstring) (a : nat) : jsstring :=
  skipn (Nat.min a (length s)) s.

(** [parts.join(sep)] *)
Fixpoint join (sep : jsstring) (parts : list jsstring) : jsstring :=
  match parts with
  | [] => []
  | [part] => part
  | part :: rest => part ++ sep ++ join sep rest
  end.

(** [s.replace(/c/g, by)] for a single code unit [c]. *)
Definition replaceAll (c : N) (by_ : jsstring) (s : jsstring) : jsstring :=
  flat_map (fun x => if N.eqb x c then by_ else [x]) s.

End Text.

(* ===================================================================== *)
(** ** [HighlightedCode] ([FlashcardReview.tsx] and [TraceMap.tsx]) *)
(* ===================================================================== *)

Module Highlight.

(** The children the component renders: text nodes and highlighted spans. *)
Inductive Segment :=
| Plain (text : jsstring)
| Mark (text : jsstring).

Definition segmentText (g : Segment) : jsstring :=
  match g with
  | Plain text => text
  | Mark text => text
  end.

(** The text a reader sees: the segments one after the other. *)
Definition displayedText (gs : list Segment) : jsstring :=
  concat (map segmentText gs).

Definition isMark (g : Segment) : bool :=
  match g with
  | Mark _ => true
  | Plain _ => false
  end.

(** Lines 12-30: the code as it is when there is nothing to highlight;
    otherwise the parts of [code.split(highlight)], each but the last
    followed by a span holding [highlight]. *)
Definition HighlightedCode (code : jsstring) (highlight : option jsstring)
    : list Segment :=
  match highlight with
  | None => [Plain code]
  | Some [] => [Plain code]
  | Some (h :: hs) =>
      if negb (Text.includes (h :: hs) code) then [Plain code]
      else
        let parts := Text.split (h :: hs) code in
        concat
          (App.mapi
             (fun part i =>
                if (Z.of_nat i <? Z.of_nat (length parts) - 1)%Z
                then [Plain part; Mark (h :: hs)]
                else [Plain part])
             parts)
  end.

End Highlight.

(* ===================================================================== *)
(** ** [CodeEditor.tsx] *)
(* ===================================================================== *)

Module Editor.

(** Line 106: four spaces. *)
Definition spaces : jsstring := js "    ".

(** Lines 104-113 of [handleKeyDown] on Tab, the textarea being mounted:
    the new value handed to [onChange] and the caret position set
    afterwards. *)
Definition handleTab (value : jsstring) (selectionStart selectionEnd : nat)
    : jsstring * nat :=
  (Text.substring value 0 selectionStart ++ spaces
     ++ Text.substringFrom value selectionEnd,
   selectionStart + length spaces).

(** Line 83: [value.split('\n').length]. *)
Definition lineCount (value : jsstring) : nat :=
  length (Text.split [10%N] value).

(** Line 147: the number of rows of the line number gutter. *)
Definition gutterRows (value : jsstring) : nat := Nat.max (lineCount value) 15.

(** Line 56: the escaping applied to the plain parts of the highlighted
    code; 38, 60 and 62 are the ampersand and the two angle brackets. *)
Definition escapeHtml (part : jsstring) : jsstring :=
  Text.replaceAll 62 (js "&gt;")
    (Text.replaceAll 60 (js "&lt;")
       (Text.replaceAll 38 (js "&amp;") part)).

(** What the three replacements make of one code unit of the input. *)
Definition escapeUnit (c : N) : jsstring :=
  if N.eqb c 38 then js "&amp;"
  else if N.eqb c 60 then js "&lt;"
  else if N.eqb c 62 then js "&gt;"
  else [c].

End Editor.

(* ===================================================================== *)
(** ** [App.tsx]: diagnosis state and what the page offers *)
(* ===================================================================== *)

Module Page.

Inductive DiagnosisStatus := Idle | Analyzing | Complete | Failed.

(** The text of [diagnosisState.error]: [err.message], or the fixed
    "unknown error" text when the message is empty. *)
Inductive ErrorText :=
| Message (msg : string)
| UnknownError.

(** [result] holds the value [analyzeCode] returned, as it was parsed. *)
Record DiagnosisState := mkDiagnosis {
  dstatus : DiagnosisStatus;
  result : option Gemini.JSON;
  error : option ErrorText
}.

(** The [useState] cells of [App]. *)
Record State := mkState {
  code : jsstring;
  diagnosisState : DiagnosisState;
  flashcards : list Flashcard;
  isReviewMode : bool
}.

(** Line 128. *)
Definition activeCardsCount (cs : list Flashcard) : nat :=
  length (filter App.notMastered cs).

(** Lines 269 and 271: [flashcards.length - activeCardsCount], on numbers. *)
Definition masteredCount (cs : list Flashcard) : Z :=
  (Z.of_nat (length cs) - Z.of_nat (activeCardsCount cs))%Z.

(** Lines 133-142 and 164-169: a click on the flashcard button. It calls
    [setIsReviewMode(true)] when a card is active and does nothing
    otherwise. The review component is rendered while [isReviewMode] is
    true: it is mounted, with [currentIndex] 0, when [isReviewMode] turns
    from false to true, and stays as it is, with its own state, when
    [isReviewMode] was true already. [mounted] is the state of the mounted
    component, if there is one. *)
Definition openReview (st : State) (mounted : option Review.Session)
    : State * option Review.Session :=
  if 0 <? activeCardsCount (flashcards st) then
    ({| code := code st; diagnosisState := diagnosisState st;
        flashcards := flashcards st; isReviewMode := true |},
     if isReviewMode st then mounted
     else Some (Review.open (flashcards st)))
  else (st, mounted).

(** Whether a parsed value is truthy. *)
Definition truthy (v : Gemini.JSON) : bool :=
  match v with
  | Gemini.JNull => false
  | Gemini.JBool b => b
  | Gemini.JNumber n => negb (Z.eqb n 0)
  | Gemini.JString s => match s with [] => false | _ :: _ => true end
  | Gemini.JArray _ => true
  | Gemini.JObject _ => true
  end.

(** What lines 60-62 make of the returned value: no card to create, the
    items of a non-empty array to map over, or a [TypeError]. *)
Inductive Drafts :=
| NoDrafts
| DraftList (items : list Gemini.JSON)
| Raises.

Section Diagnose.

Variable API_KEY : option jsstring.
Variable JSON_parse : jsstring -> option Gemini.JSON.
Variable generateContent : nat -> jsstring -> Gemini.Reply.

(** The comparison [v > 0] of JavaScript on a parsed value, with its
    coercions. *)
Variable greaterThanZero : Gemini.JSON -> bool.

(** An item of the array read at the type [FlashcardData] that line 62
    gives it; the spread [...data] never throws. *)
Variable asDraft : Gemini.JSON -> FlashcardData.

(** [Date.now()] at each draft of the ingestion. *)
Variable clock : nat -> N.

(** Lines 60-62: [result.generatedFlashcards &&
    result.generatedFlashcards.length > 0], then [.map]. Reading a property
    of [null] throws; a property that is absent, or read on a string, a
    number or a boolean, is [undefined]. Only an array has [map]: a
    non-empty string, or an object whose own [length] is greater than 0,
    passes the test and then throws at [.map]. *)
Definition readDrafts (result : Gemini.JSON) : Drafts :=
  match result with
  | Gemini.JNull => Raises
  | _ =>
      match Gemini.getField (js "generatedFlashcards") result with
      | None => NoDrafts
      | Some gf =>
          if negb (truthy gf) then NoDrafts
          else
            match gf with
            | Gemini.JArray [] => NoDrafts
            | Gemini.JArray (item :: items) => DraftList (item :: items)
            | Gemini.JString _ => Raises
            | Gemini.JObject fields =>
                match Gemini.lookupField (js "length") fields with
                | Some len => if greaterThanZero len then Raises else NoDrafts
                | None => NoDrafts
                end
            | _ => NoDrafts
            end
      end
  end.

Definition failed (st : State) (text : ErrorText) : State :=
  {| code := code st;
     diagnosisState :=
       {| dstatus := Failed; result := None; error := Some text |};
     flashcards := flashcards st;
     isReviewMode := isReviewMode st |}.

(** Lines 45-85: the state once [handleDiagnose] has run to its end, and the
    effects of the pipeline. A blank submission returns at line 48. An
    error thrown inside the [try], by [analyzeCode] or by lines 60-62, ends
    in the [catch] of line 77. *)
Definition handleDiagnose (st : State) : State * Gemini.World :=
  match trim (code st) with
  | [] => (st, Gemini.world0)
  | _ :: _ =>
      match Gemini.analyzeCode API_KEY JSON_parse generateContent (code st) with
      | (Normal parsed, w) =>
          match readDrafts parsed with
          | Raises =>
              (failed st
                 (Message "result.generatedFlashcards.map is not a function"),
               w)
          | drafts =>
              ({| code := code st;
                  diagnosisState :=
                    {| dstatus := Complete; result := Some parsed;
                       error := None |};
                  flashcards :=
                    App.ingest clock
                      (match drafts with
                       | DraftList items => Some (map asDraft items)
                       | _ => None
                       end)
                      (flashcards st);
                  isReviewMode := isReviewMode st |}, w)
          end
      | (Throw msg, w) =>
          (failed st
             (match msg with
              | EmptyString => UnknownError
              | String _ _ => Message msg
              end), w)
      end
  end.

End Diagnose.

End Page.

(* ===================================================================== *)
(** ** Answer histories *)
(* ===================================================================== *)

Module Waiting.

(** The time spent sleeping, in milliseconds. *)
Definition totalSleep (w : Gemini.World) : Z :=
  fold_right Z.add 0%Z (Gemini.sleeps (Gemini.effects w)).

(** A collaborator that rejects its first [failures] calls and then answers
    with [text]. *)
Definition failsThenAnswers (failures : nat) (text : jsstring)
    : nat -> jsstring -> Gemini.Reply :=
  fun n _ =>
    if n <? failures then Gemini.Rejected "network"
    else Gemini.Resolved (Some text).

End Waiting.

Module Scenes.

(** A review of two cards with the pointer on the second one, which is one
    correct answer away from mastery, and that answer typed in. *)
Definition lastCardAboutToBeMastered : Review.Session :=
  {| Review.cards := [Samples.card Samples.draftA "a" 0 1 New;
                      Samples.card Samples.draftB "b" 2 0 Learning];
     Review.currentIndex := 1;
     Review.userInput := js "if x == 1:";
     Review.showResult := None |}.

(** A review of two fresh cards with a wrong answer typed in. *)
Definition wrongAnswerTyped : Review.Session :=
  {| Review.cards := Samples.freshPair;
     Review.currentIndex := 0;
     Review.userInput := js "y = 2";
     Review.showResult := None |}.

(** The reply text whose [generatedFlashcards] is the string "ab"; 34 is
    the double quote. *)
Definition stringDraftsReply : jsstring :=
  js "{" ++ [34%N] ++ js "generatedFlashcards" ++ [34%N] ++ js ":"
    ++ [34%N] ++ js "ab" ++ [34%N] ++ js "}".

(** The page before a first diagnosis of the given code. *)
Definition idlePage (code : jsstring) (cs : list Flashcard) : Page.State :=
  {| Page.code := code;
     Page.diagnosisState :=
       {| Page.dstatus := Page.Idle; Page.result := None;
          Page.error := None |};
     Page.flashcards := cs;
     Page.isReviewMode := false |}.

End Scenes.

Module History.

(** The stats of a card after one [handleUpdateCard] per answer. *)
Definition recordAll (answers : list bool) (s : Stats) : Stats :=
  fold_left (fun acc isCorrect => App.newStats isCorrect acc) answers s.

(** How many answers were incorrect. *)
Definition misses (answers : list bool) : nat :=
  length (filter negb answers).

(** How many correct answers end the history. *)
Fixpoint trailingCorrect_rev (reversed : list bool) : nat :=
  match reversed with
  | true :: r => S (trailingCorrect_rev r)
  | _ => 0
  end.

Definition trailingCorrect (answers : list bool) : nat :=
  trailingCorrect_rev (List.rev answers).

End History.

(* ===================================================================== *)
(** * Properties *)
(* ===================================================================== *)

(** ** Strings *)

Lemma streq_true_iff (a b : jsstring) : streq a b = true <-> a = b.
Proof.
  revert b. induction a as [|x a IH]; intros [|y b]; simpl;
    try (split; congruence).
  rewrite andb_true_iff, N.eqb_eq, IH. split.
  - intros [-> ->]. reflexivity.
  - intros H. injection H as -> ->. auto.
Qed.

Lemma streq_refl (a : jsstring) : streq a a = true.
Proof. apply streq_true_iff. reflexivity. Qed.

Lemma streq_false_iff (a b : jsstring) : streq a b = false <-> a <> b.
Proof.
  rewrite <- streq_true_iff. destruct (streq a b); split; congruence.
Qed.

(** ** [handleUpdateCard] *)

Lemma handleUpdateCard_length cardId isCorrect prev :
  length (App.handleUpdateCard cardId isCorrect prev) = length prev.
Proof. unfold App.handleUpdateCard. apply length_map. Qed.

Lemma handleUpdateCard_nth cardId isCorrect prev i card :
  nth_error prev i = Some card ->
  nth_error (App.handleUpdateCard cardId isCorrect prev) i =
  Some (if negb (streq (id card) cardId) then card
        else {| data := data card; id := id card;
                stats := App.newStats isCorrect (stats card) |}).
Proof.
  intros H. unfold App.handleUpdateCard.
  rewrite nth_error_map, H. reflexivity.
Qed.

Lemma handleUpdateCard_absent cardId isCorrect prev :
  (forall c, In c prev -> id c <> cardId) ->
  App.handleUpdateCard cardId isCorrect prev = prev.
Proof.
  intros H. unfold App.handleUpdateCard.
  rewrite <- (map_id prev) at 2. apply map_ext_in.
  intros c Hc. apply H in Hc. apply streq_false_iff in Hc.
  rewrite Hc. reflexivity.
Qed.

(** C1. Recording an answer on [cardId]: every card with another id is left
    as it is; a card with that id keeps its data and id, and its stats follow
    the transition: a correct answer adds 1 to [correctStreak] and sets the
    status to mastered when the new streak is at least 3, to learning
    otherwise; an incorrect answer sets [correctStreak] to 0, adds 1 to
    [incorrectCount] and sets the status to critical when the new count is at
    least 3, and keeps the prior status otherwise. *)
Theorem handleUpdateCard_transition :
  forall cardId isCorrect prev i card,
    nth_error prev i = Some card ->
    exists card',
      nth_error (App.handleUpdateCard cardId isCorrect prev) i = Some card' /\
      length (App.handleUpdateCard cardId isCorrect prev) = length prev /\
      (id card <> cardId -> card' = card) /\
      (id card = cardId ->
       data card' = data card /\ id card' = id card /\
       (isCorrect = true ->
        correctStreak (stats card') = (correctStreak (stats card) + 1)%Z /\
        incorrectCount (stats card') = incorrectCount (stats card) /\
        status (stats card') =
          if (3 <=? correctStreak (stats card'))%Z then Mastered else Learning) /\
       (isCorrect = false ->
        correctStreak (stats card') = 0%Z /\
        incorrectCount (stats card') = (incorrectCount (stats card) + 1)%Z /\
        status (stats card') =
          if (3 <=? incorrectCount (stats card'))%Z then Critical
          else status (stats card))).
Proof.
  intros cardId isCorrect prev i card Hnth.
  eexists. split; [apply handleUpdateCard_nth; exact Hnth|].
  split; [apply handleUpdateCard_length|].
  destruct (streq (id card) cardId) eqn:E; simpl.
  - split; [intros Hne; apply streq_true_iff in E; contradiction|].
    intros _. do 2 (split; [reflexivity|]).
    split; intros ->; simpl; repeat split; reflexivity.
  - apply streq_false_iff in E. split; [reflexivity|].
    intros Heq. contradiction.
Qed.

Lemma handleUpdateCard_transition_witness :
  nth_error Samples.freshPair 1 =
    Some (Samples.card Samples.draftB "1700000000000-1" 0 0 New) /\
  exists card',
    nth_error (App.handleUpdateCard (js "1700000000000-1") true Samples.freshPair) 1
      = Some card' /\
    correctStreak (stats card') = 1%Z /\ status (stats card') = Learning.
Proof.
  split; [reflexivity|].
  destruct (handleUpdateCard_transition (js "1700000000000-1") true
              Samples.freshPair 1 _ eq_refl)
    as (card' & Hnth & _ & _ & Hsame).
  exists card'. split; [exact Hnth|].
  destruct (Hsame eq_refl) as (_ & _ & Hok & _).
  destruct (Hok eq_refl) as (Hs & _ & Hst).
  rewrite Hst, Hs. split; reflexivity.
Defined.

(** C2, as stated, fails: a card created by ingestion and answered wrong,
    wrong, correct, correct, correct is mastered with two misses; one more
    incorrect answer on it makes it critical. *)
Lemma mastered_card_becomes_critical :
  let cardId := js "1700000000000-0" in
  let mastered :=
    Samples.recordAnswers cardId [false; false; true; true; true]
                          Samples.freshPair in
  map (fun c => status (stats c)) mastered = [Mastered; New] /\
  map (fun c => status (stats c)) (App.handleUpdateCard cardId false mastered)
    = [Critical; New].
Proof. split; reflexivity. Qed.

(** C2, amended. An answer recorded on a mastered card leaves it mastered
    exactly when, for an incorrect answer, the new [incorrectCount] is below 3
    (from 3 on the card becomes critical) and, for a correct answer, the new
    [correctStreak] is at least 3 (below 3 the card becomes learning). An
    incorrect answer adds 1 to [incorrectCount] in either case. *)
Theorem mastered_card_after_answer :
  forall cardId isCorrect prev i card,
    nth_error prev i = Some card ->
    id card = cardId ->
    status (stats card) = Mastered ->
    exists card',
      nth_error (App.handleUpdateCard cardId isCorrect prev) i = Some card' /\
      incorrectCount (stats card') =
        (if isCorrect then incorrectCount (stats card)
         else incorrectCount (stats card) + 1)%Z /\
      (status (stats card') = Mastered <->
       if isCorrect then (3 <= correctStreak (stats card) + 1)%Z
       else (incorrectCount (stats card) + 1 < 3)%Z) /\
      (isCorrect = false -> (3 <= incorrectCount (stats card) + 1)%Z ->
       status (stats card') = Critical) /\
      (isCorrect = true -> (correctStreak (stats card) + 1 < 3)%Z ->
       status (stats card') = Learning).
Proof.
  intros cardId isCorrect prev i card Hnth Hid Hst.
  eexists. split; [apply handleUpdateCard_nth; exact Hnth|].
  rewrite Hid, streq_refl. simpl.
  destruct isCorrect; simpl.
  - split; [reflexivity|].
    destruct (Z.leb_spec 3 (correctStreak (stats card) + 1)) as [Hle|Hlt].
    + repeat split; auto; try congruence. intros _ ?. lia.
    + repeat split; auto; try congruence; try lia.
  - split; [reflexivity|]. rewrite Hst.
    destruct (Z.leb_spec 3 (incorrectCount (stats card) + 1)) as [Hle|Hlt].
    + repeat split; auto; try congruence; try lia.
    + repeat split; auto; try congruence. intros _ ?. lia.
Qed.

Lemma mastered_card_after_answer_witness :
  exists card',
    nth_error (App.handleUpdateCard (js "m") false
                 [Samples.card Samples.draftA "m" 3 0 Mastered]) 0 = Some card' /\
    incorrectCount (stats card') = 1%Z /\
    status (stats card') = Mastered.
Proof.
  destruct (mastered_card_after_answer (js "m") false
              [Samples.card Samples.draftA "m" 3 0 Mastered] 0 _
              eq_refl eq_refl eq_refl)
    as (card' & Hnth & Hcount & Hiff & _).
  exists card'. split; [exact Hnth|]. split; [exact Hcount|].
  apply Hiff. simpl. lia.
Defined.

(** C9, as stated, fails: no card has the id, and the call completes
    normally with the collection as it was. *)
Lemma unknown_id_completes_normally :
  existsb (fun c => streq (id c) (js "no-such-card")) Samples.freshPair = false /\
  App.handleUpdateCard_call (js "no-such-card") true Samples.freshPair
    = Normal Samples.freshPair.
Proof. split; reflexivity. Qed.

(** C9, amended. For an id that matches no card of the collection,
    [handleUpdateCard] completes normally and leaves the collection
    unchanged; it raises no error. *)
Theorem handleUpdateCard_unknown_id :
  forall cardId isCorrect prev,
    (forall c, In c prev -> id c <> cardId) ->
    App.handleUpdateCard_call cardId isCorrect prev = Normal prev.
Proof.
  intros cardId isCorrect prev H. unfold App.handleUpdateCard_call.
  rewrite handleUpdateCard_absent by exact H. reflexivity.
Qed.

Lemma handleUpdateCard_unknown_id_witness :
  App.handleUpdateCard_call (js "zz") false
    [Samples.card Samples.draftA "a" 1 0 Learning]
  = Normal [Samples.card Samples.draftA "a" 1 0 Learning].
Proof.
  apply (handleUpdateCard_unknown_id (js "zz") false
           [Samples.card Samples.draftA "a" 1 0 Learning]).
  intros c [<-|[]]. simpl. discriminate.
Defined.

(** C10. An incorrect answer on a card whose status is new, when the
    resulting [incorrectCount] is still below 3, leaves the status new. *)
Theorem new_card_incorrect_stays_new :
  forall cardId prev i card,
    nth_error prev i = Some card ->
    id card = cardId ->
    status (stats card) = New ->
    (incorrectCount (stats card) + 1 < 3)%Z ->
    exists card',
      nth_error (App.handleUpdateCard cardId false prev) i = Some card' /\
      incorrectCount (stats card') = (incorrectCount (stats card) + 1)%Z /\
      status (stats card') = New.
Proof.
  intros cardId prev i card Hnth Hid Hst Hlt.
  eexists. split; [apply handleUpdateCard_nth; exact Hnth|].
  rewrite Hid, streq_refl. simpl. split; [reflexivity|].
  destruct (Z.leb_spec 3 (incorrectCount (stats card) + 1)); [lia|exact Hst].
Qed.

Lemma new_card_incorrect_stays_new_witness :
  exists card',
    nth_error (App.handleUpdateCard (js "1700000000000-0") false
                 Samples.freshPair) 0 = Some card' /\
    incorrectCount (stats card') = 1%Z /\
    status (stats card') = New.
Proof.
  apply (new_card_incorrect_stays_new (js "1700000000000-0")
           Samples.freshPair 0 _ eq_refl eq_refl eq_refl).
  simpl. lia.
Defined.

(** ** [clearMasteredCards] *)

Lemma status_eqb_Mastered (st : CardStatus) :
  status_eqb st Mastered = true <-> st = Mastered.
Proof. destruct st; simpl; split; congruence. Qed.

Lemma filter_split_length {A : Type} (p : A -> bool) (l : list A) :
  length l = length (filter p l) + length (filter (fun x => negb (p x)) l).
Proof.
  induction l as [|x l IH]; simpl; [reflexivity|].
  destruct (p x); simpl; lia.
Qed.

Lemma filter_idem {A : Type} (p : A -> bool) (l : list A) :
  filter p (filter p l) = filter p l.
Proof.
  induction l as [|x l IH]; simpl; [reflexivity|].
  destruct (p x) eqn:E; simpl; [rewrite E, IH|]; auto.
Qed.

(** C8, as stated, fails: one mastered card is removed, and the call
    evaluates to [undefined], not to the count 1; the two counts of its log
    line are both 1. *)
Lemma clearMasteredCards_returns_no_count :
  let before := [Samples.card Samples.draftA "a" 3 0 Mastered;
                 Samples.card Samples.draftB "b" 1 0 Learning] in
  let out := App.clearMasteredCards before in
  length before - length (App.nextFlashcards out) = 1 /\
  App.returned out = Undefined /\
  App.returned out <> Num 1 /\
  (App.loggedBefore out, App.loggedAfter out) = (2, 2).
Proof. repeat split; try reflexivity. discriminate. Qed.

(** C8, amended. [clearMasteredCards] keeps exactly the cards that are not
    mastered (every mastered card is removed, no other card is), so the
    collection shrinks by the number of mastered cards; the call itself
    evaluates to [undefined]. Applied again to the collection it left, it
    removes nothing: the collection is unchanged and shrinks by 0. *)
Theorem clearMasteredCards_removes_mastered :
  forall flashcards,
    let out := App.clearMasteredCards flashcards in
    let again := App.clearMasteredCards (App.nextFlashcards out) in
    (forall c, In c (App.nextFlashcards out) <->
               In c flashcards /\ status (stats c) <> Mastered) /\
    length flashcards =
      length (App.nextFlashcards out) +
      length (filter App.isMastered flashcards) /\
    App.returned out = Undefined /\
    App.nextFlashcards again = App.nextFlashcards out /\
    length (App.nextFlashcards out) - length (App.nextFlashcards again) = 0.
Proof.
  intros flashcards. cbv zeta. unfold App.clearMasteredCards; simpl.
  split; [|split; [|split; [|split]]].
  - intros c. rewrite filter_In. unfold App.notMastered.
    rewrite negb_true_iff, <- not_true_iff_false, status_eqb_Mastered.
    reflexivity.
  - rewrite (filter_split_length App.isMastered flashcards) at 1.
    rewrite Nat.add_comm. reflexivity.
  - reflexivity.
  - apply filter_idem.
  - rewrite filter_idem. apply Nat.sub_diag.
Qed.

(** ** Ingestion *)

Lemma Number_toString_inj (d e : Decimal.uint) :
  Number_toString d = Number_toString e -> d = e.
Proof.
  revert e. induction d; intros e; destruct e; simpl; intros H;
    try discriminate; try reflexivity;
    injection H as H; f_equal; auto.
Qed.

Lemma Number_toString_no_hyphen (d : Decimal.uint) :
  ~ In 45%N (Number_toString d).
Proof.
  induction d; simpl; intros H; try tauto;
    destruct H as [H|H]; try discriminate; auto.
Qed.

(** Two texts without hyphen, each followed by a hyphen and a tail, agree
    only if they agree on both sides of that hyphen. *)
Lemma split_at_hyphen (a b x y : jsstring) :
  ~ In 45%N a -> ~ In 45%N b ->
  a ++ 45%N :: x = b ++ 45%N :: y -> a = b /\ x = y.
Proof.
  revert b. induction a as [|c a IH]; intros [|d b] Ha Hb H; simpl in *.
  - injection H as ->. auto.
  - injection H as <- _. tauto.
  - injection H as -> _. tauto.
  - injection H as -> H. apply IH in H; [|tauto|tauto].
    destruct H as [-> ->]. auto.
Qed.

Lemma cardId_inj (t t' : N) (i j : nat) :
  App.cardId t i = App.cardId t' j -> t = t' /\ i = j.
Proof.
  unfold App.cardId. intros H.
  apply split_at_hyphen in H; try apply Number_toString_no_hyphen.
  destruct H as [Ht Hi].
  apply Number_toString_inj in Ht. apply Number_toString_inj in Hi.
  split.
  - rewrite <- (DecimalN.Unsigned.of_to t), <- (DecimalN.Unsigned.of_to t'), Ht.
    reflexivity.
  - rewrite <- (DecimalNat.Unsigned.of_to i), <- (DecimalNat.Unsigned.of_to j), Hi.
    reflexivity.
Qed.

Lemma mapi_from_length {A B : Type} (f : A -> nat -> B) (start : nat) (l : list A) :
  length (App.mapi_from f start l) = length l.
Proof.
  revert start. induction l as [|x l IH]; intros start; simpl; auto.
Qed.

Lemma mapi_from_nth {A B : Type} (f : A -> nat -> B) (start : nat) (l : list A)
    (i : nat) :
  nth_error (App.mapi_from f start l) i =
  option_map (fun x => f x (start + i)) (nth_error l i).
Proof.
  revert start i. induction l as [|x l IH]; intros start [|i]; simpl; auto.
  - rewrite Nat.add_0_r. reflexivity.
  - rewrite IH. rewrite Nat.add_succ_r. reflexivity.
Qed.

Lemma newCards_nth (clock : nat -> N) (drafts : list FlashcardData) (i : nat) :
  nth_error (App.newCards clock drafts) i =
  option_map (fun d => {| data := d; id := App.cardId (clock i) i;
                          stats := App.freshStats |})
             (nth_error drafts i).
Proof. unfold App.newCards, App.mapi. apply mapi_from_nth. Qed.

Lemma newCards_ids_NoDup (clock : nat -> N) (drafts : list FlashcardData) :
  NoDup (map id (App.newCards clock drafts)).
Proof.
  apply (proj2 (NoDup_nth_error _)).
  intros i j Hi Heq. rewrite length_map in Hi.
  rewrite !nth_error_map, !newCards_nth in Heq.
  unfold App.newCards, App.mapi in Hi. rewrite mapi_from_length in Hi.
  destruct (nth_error drafts i) eqn:Ei; [|apply nth_error_None in Ei; lia].
  destruct (nth_error drafts j) eqn:Ej; simpl in Heq; [|discriminate].
  injection Heq as Heq. apply cardId_inj in Heq. tauto.
Qed.

Lemma ingest_eq (clock : nat -> N) (drafts : list FlashcardData)
    (prev : list Flashcard) :
  App.ingest clock (Some drafts) prev = prev ++ App.newCards clock drafts.
Proof.
  destruct drafts; simpl; [rewrite app_nil_r|]; reflexivity.
Qed.

(** C6, as stated, fails: two ingestions whose [Date.now()] reads the same
    millisecond give their first cards the same id. *)
Lemma same_instant_ids_collide :
  let clock := fun _ : nat => 1700000000000%N in
  let once := App.ingest clock (Some [Samples.draftA]) [] in
  let twice := App.ingest clock (Some [Samples.draftB]) once in
  map id twice = [js "1700000000000-0"; js "1700000000000-0"] /\
  ~ NoDup (map id twice).
Proof.
  split; [reflexivity|].
  intros H. inversion H as [|x l Hnotin _]; subst.
  apply Hnotin. left. reflexivity.
Qed.

(** C6, amended. Ingesting drafts appends one card per draft after the
    existing cards, in draft order, leaving the existing cards as they were;
    the card made from the draft at position [i] carries that draft, the id
    [`${Date.now()}-${i}`] and the stats [{0, 0, new}]. The ids made in one
    call are pairwise distinct, and they differ from the id of every existing
    card that was made at another timestamp or for a position outside the
    batch. (Two calls at the same timestamp are not covered.) *)
Theorem ingest_appends_fresh_cards :
  forall clock drafts prev,
    let next := App.ingest clock (Some drafts) prev in
    let created := App.newCards clock drafts in
    next = prev ++ created /\
    length created = length drafts /\
    (forall i d, nth_error drafts i = Some d ->
       nth_error next (length prev + i) =
       Some {| data := d; id := App.cardId (clock i) i;
               stats := {| correctStreak := 0; incorrectCount := 0;
                           status := New |} |}) /\
    NoDup (map id created) /\
    (forall c t j, In c prev -> id c = App.cardId t j ->
       (forall i, i < length drafts -> clock i = t -> i <> j) ->
       ~ In (id c) (map id created)).
Proof.
  intros clock drafts prev. cbv zeta.
  split; [apply ingest_eq|].
  split; [unfold App.newCards, App.mapi; apply mapi_from_length|].
  split.
  - intros i d Hd. rewrite ingest_eq.
    rewrite nth_error_app2 by lia.
    replace (length prev + i - length prev) with i by lia.
    rewrite newCards_nth, Hd. reflexivity.
  - split; [apply newCards_ids_NoDup|].
    intros c t j _ Hid Hfresh Hin.
    apply In_nth_error in Hin. destruct Hin as [i Hi].
    rewrite nth_error_map, newCards_nth in Hi.
    destruct (nth_error drafts i) eqn:Ei; simpl in Hi; [|discriminate].
    injection Hi as Hi. rewrite Hid in Hi. apply cardId_inj in Hi.
    destruct Hi as [Ht Hj].
    apply (Hfresh i); auto.
    apply nth_error_Some. congruence.
Qed.

Lemma ingest_appends_fresh_cards_witness :
  let clock := fun _ : nat => 1700000000001%N in
  let next := App.ingest clock (Some [Samples.draftA; Samples.draftB])
                         Samples.freshPair in
  length next = 4 /\
  ~ In (js "1700000000000-0") (map id (App.newCards clock [Samples.draftA; Samples.draftB])).
Proof.
  cbv zeta.
  destruct (ingest_appends_fresh_cards (fun _ : nat => 1700000000001%N)
              [Samples.draftA; Samples.draftB] Samples.freshPair)
    as (Hnext & _ & _ & _ & Hfresh).
  split; [rewrite Hnext; reflexivity|].
  apply (Hfresh (Samples.card Samples.draftA "1700000000000-0" 0 0 New)
                1700000000000%N 0).
  - left. reflexivity.
  - reflexivity.
  - intros i _ Hclock. discriminate Hclock.
Defined.

(** ** Answer equivalence *)

Lemma replace_ws_runs_filter (s : jsstring) :
  replace_ws_runs s = Review.stripAllWhitespace s.
Proof.
  induction s as [|c s IH]; simpl; [reflexivity|].
  destruct (isWhiteSpace c); simpl; rewrite IH; reflexivity.
Qed.

Lemma trimStart_no_ws (s : jsstring) :
  Forall (fun c => isWhiteSpace c = false) s -> trimStart s = s.
Proof.
  intros H. destruct H as [|c s Hc _]; simpl; [reflexivity|].
  rewrite Hc. reflexivity.
Qed.

Lemma trim_no_ws (s : jsstring) :
  Forall (fun c => isWhiteSpace c = false) s -> trim s = s.
Proof.
  intros H. unfold trim, trimEnd.
  rewrite (trimStart_no_ws s H).
  rewrite trimStart_no_ws by (apply Forall_rev; exact H).
  apply rev_involutive.
Qed.

Lemma stripAllWhitespace_no_ws (s : jsstring) :
  Forall (fun c => isWhiteSpace c = false) (Review.stripAllWhitespace s).
Proof.
  apply Forall_forall. intros c Hc. apply filter_In in Hc.
  destruct Hc as [_ Hc]. apply negb_true_iff in Hc. exact Hc.
Qed.

Lemma normalize_strips (s : jsstring) :
  Review.normalize s = Review.stripAllWhitespace s.
Proof.
  unfold Review.normalize. rewrite replace_ws_runs_filter.
  apply trim_no_ws, stripAllWhitespace_no_ws.
Qed.

(** C5. The answer check of [handleCheck] holds exactly when the typed
    answer and the card's [backCode] are the same sequence of code units once
    every white space character is removed from both (upper and lower case
    letters are different code units). So " x = 1 " matches "x=1", while
    "x = 1" does not match "x = 2", nor does "X = 1" match "x = 1". *)
Theorem answer_equivalence :
  (forall input code,
     Review.isCorrect input code = true <->
     Review.stripAllWhitespace input = Review.stripAllWhitespace code) /\
  Review.isCorrect (js " x = 1 ") (js "x=1") = true /\
  Review.isCorrect (js "x = 1") (js "x = 2") = false /\
  Review.isCorrect (js "X = 1") (js "x = 1") = false.
Proof.
  split.
  - intros input code. unfold Review.isCorrect.
    rewrite streq_true_iff, !normalize_strips. reflexivity.
  - repeat split; reflexivity.
Qed.

(** ** The review session *)

Lemma currentCard_render (s : Review.Session) (card : Flashcard) :
  Review.currentCard s = Some card -> Review.render s = Review.Showing card.
Proof.
  unfold Review.render, Review.currentCard. intros H.
  destruct (Review.activeCards (Review.cards s)) as [|c l].
  - destruct (Review.currentIndex s); discriminate.
  - rewrite H. reflexivity.
Qed.

Lemma nextIndex_spec (index len : nat) :
  Review.nextIndex index len = if S index <? len then S index else 0.
Proof.
  unfold Review.nextIndex.
  destruct (Z.ltb_spec (Z.of_nat index) (Z.of_nat len - 1));
    destruct (Nat.ltb_spec (S index) len); lia.
Qed.

(** C7. The code breaks the invariant of the claim: in a review of two
    fresh cards the last check masters the second card while the pointer is
    1; one card is still active, but the pointer is left at 1, which is no
    index of the recomputed active subset; nothing is rendered and neither
    check nor next is available any more, so the session has ended on its
    own while an active card remains. The comment of [handleNext] (line 85,
    loop while there are still cards) and the path where the mastered card
    is not the last one both keep the session going. *)
Lemma pointer_stale_after_mastering :
  exists s,
    Review.run (Review.open Samples.freshPair) Samples.reviewRounds = Some s /\
    map (fun c => status (stats c)) (Review.cards s) = [Critical; Mastered] /\
    length (Review.activeCards (Review.cards s)) = 1 /\
    Review.currentIndex s = 1 /\
    ~ Review.pointerValid s /\
    Review.render s = Review.Blank /\
    Review.step s Review.Check = None /\
    Review.step s Review.Next = None.
Proof.
  destruct (Review.run (Review.open Samples.freshPair) Samples.reviewRounds)
    as [s|] eqn:E; vm_compute in E; [|discriminate E].
  exists s. split; [reflexivity|].
  injection E as <-.
  repeat split; try (vm_compute; reflexivity).
  unfold Review.pointerValid. vm_compute. lia.
Qed.

(** What advancing does while a card is shown: the pointer moves to the
    next index of the recomputed active sequence when there is one and to 0
    otherwise; it is then a valid index and a card is shown again. Checking
    an answer leaves the pointer where it is. *)
Theorem handleNext_wraps :
  forall s card,
    Review.currentCard s = Some card ->
    nth_error (filter App.notMastered (Review.cards s)) (Review.currentIndex s)
      = Some card /\
    (exists s',
       Review.handleNext s = Some s' /\
       Review.cards s' = Review.cards s /\
       Review.currentIndex s' =
         (if S (Review.currentIndex s) <?
             length (Review.activeCards (Review.cards s))
          then S (Review.currentIndex s) else 0) /\
       Review.pointerValid s' /\
       exists card', Review.currentCard s' = Some card') /\
    (exists s2,
       Review.handleCheck s = Some s2 /\
       Review.currentIndex s2 = Review.currentIndex s).
Proof.
  intros s card Hcur. split; [exact Hcur|]. split.
  - unfold Review.handleNext. rewrite (currentCard_render s card Hcur).
    eexists. split; [reflexivity|]. simpl.
    split; [reflexivity|]. split; [apply nextIndex_spec|].
    assert (Hlen : Review.currentIndex s < length (Review.activeCards (Review.cards s))).
    { apply nth_error_Some. unfold Review.currentCard in Hcur. congruence. }
    assert (Hvalid : Review.nextIndex (Review.currentIndex s)
                       (length (Review.activeCards (Review.cards s)))
                     < length (Review.activeCards (Review.cards s))).
    { rewrite nextIndex_spec.
      destruct (Nat.ltb_spec (S (Review.currentIndex s))
                  (length (Review.activeCards (Review.cards s)))); lia. }
    split; [exact Hvalid|].
    unfold Review.currentCard; simpl.
    destruct (nth_error (Review.activeCards (Review.cards s))
                (Review.nextIndex (Review.currentIndex s)
                   (length (Review.activeCards (Review.cards s))))) eqn:E.
    + eexists; reflexivity.
    + apply nth_error_None in E. lia.
  - unfold Review.handleCheck. rewrite (currentCard_render s card Hcur).
    eexists. split; [reflexivity|].
    unfold Review.resetOnChange; simpl.
    match goal with |- context [if ?b then _ else _] => destruct b end;
      reflexivity.
Qed.

Lemma handleNext_wraps_witness :
  exists s',
    Review.handleNext
      {| Review.cards := Samples.freshPair; Review.currentIndex := 1;
         Review.userInput := []; Review.showResult := Some true |} = Some s' /\
    Review.currentIndex s' = 0.
Proof.
  destruct (handleNext_wraps
              {| Review.cards := Samples.freshPair; Review.currentIndex := 1;
                 Review.userInput := []; Review.showResult := Some true |}
              (Samples.card Samples.draftB "1700000000000-1" 0 0 New) eq_refl)
    as (_ & (s' & Hnext & _ & Hidx & _) & _).
  exists s'. split; [exact Hnext|]. rewrite Hidx. reflexivity.
Defined.

(** ** The diagnosis request pipeline *)

Section PipelineFacts.

Variable JSON_parse : jsstring -> option Gemini.JSON.
Variable generateContent : nat -> jsstring -> Gemini.Reply.

Let attempt := Gemini.attempt JSON_parse generateContent.
Let retryLoop := Gemini.retryLoop JSON_parse generateContent.
Let parsed (n : nat) (prompt : jsstring) :=
  Gemini.parsedReply JSON_parse (generateContent n prompt).

Lemma attempt_usable prompt w d :
  parsed (Gemini.requests w) prompt = Some d ->
  attempt prompt w = (Normal d, Gemini.afterRequest prompt w).
Proof.
  unfold parsed, attempt, Gemini.attempt, Gemini.parsedReply.
  destruct (generateContent (Gemini.requests w) prompt) as [?|[[|c text]|]];
    try discriminate.
  destruct (JSON_parse (c :: text)) as [[]|]; try discriminate;
    intros H; injection H as <-; reflexivity.
Qed.

Lemma attempt_unusable prompt w :
  parsed (Gemini.requests w) prompt = None ->
  exists msg, attempt prompt w = (Throw msg, Gemini.afterRequest prompt w).
Proof.
  unfold parsed, attempt, Gemini.attempt, Gemini.parsedReply.
  destruct (generateContent (Gemini.requests w) prompt) as [?|[[|c text]|]];
    try (intros _; eexists; reflexivity).
  destruct (JSON_parse (c :: text)) as [[]|]; try discriminate;
    intros _; eexists; reflexivity.
Qed.

(** One turn of the loop. *)
Lemma retryLoop_usable prompt attempts w d :
  attempts < 5 ->
  parsed (Gemini.requests w) prompt = Some d ->
  retryLoop prompt attempts w = (Normal d, Gemini.afterRequest prompt w).
Proof.
  intros Hlt Hd. unfold retryLoop. simp retryLoop.
  destruct (lt_dec attempts Gemini.maxAttempts) as [?|Hn];
    [|unfold Gemini.maxAttempts in Hn; lia].
  simpl. fold attempt. rewrite (attempt_usable _ _ _ Hd). reflexivity.
Qed.

Lemma retryLoop_unusable prompt attempts w :
  attempts < 5 ->
  parsed (Gemini.requests w) prompt = None ->
  retryLoop prompt attempts w =
  if 5 <=? S attempts
  then (Throw Gemini.failedAfterRetries, Gemini.afterRequest prompt w)
  else retryLoop prompt (S attempts)
         (Gemini.sleep (Gemini.backoff (S attempts))
            (Gemini.afterRequest prompt w)).
Proof.
  intros Hlt Hd.
  destruct (attempt_unusable _ _ Hd) as [msg Hatt].
  remember (if 5 <=? S attempts
            then (Throw Gemini.failedAfterRetries, Gemini.afterRequest prompt w)
            else retryLoop prompt (S attempts)
                   (Gemini.sleep (Gemini.backoff (S attempts))
                      (Gemini.afterRequest prompt w))) as rhs eqn:Hrhs.
  unfold retryLoop. rewrite Gemini.retryLoop_equation_1.
  destruct (lt_dec attempts Gemini.maxAttempts) as [?|Hn];
    [|unfold Gemini.maxAttempts in Hn; lia].
  simpl. fold attempt. rewrite Hatt. simpl.
  destruct (le_dec Gemini.maxAttempts (S attempts)) as [Hle|Hgt];
    simpl; unfold Gemini.maxAttempts in *; subst rhs;
    destruct (Nat.leb_spec 5 (S attempts)); try lia; reflexivity.
Qed.

Ltac earlier_failed :=
  let n := fresh "n" in
  let Hn := fresh "Hn" in
  intros n Hn;
  repeat (destruct n as [|n]; [assumption|]); lia.

Ltac usable_at k :=
  left; eexists k, _;
  split; [lia|]; split; [earlier_failed|]; split; [eassumption|];
  rewrite retryLoop_usable with (d := _) by (try lia; eassumption);
  reflexivity.

(** The whole loop: it stops at the first usable reply among the first five,
    or after the fifth unusable one. *)
Lemma retryLoop_outcome prompt :
  (exists k d,
     k < 5 /\ (forall n, n < k -> parsed n prompt = None) /\
     parsed k prompt = Some d /\
     retryLoop prompt 0 Gemini.world0 =
       (Normal d,
        {| Gemini.requests := S k;
           Gemini.effects := firstn (2 * k + 1) (Gemini.fullSchedule prompt) |}))
  \/
  ((forall n, n < 5 -> parsed n prompt = None) /\
   retryLoop prompt 0 Gemini.world0 =
     (Throw Gemini.failedAfterRetries,
      {| Gemini.requests := 5; Gemini.effects := Gemini.fullSchedule prompt |})).
Proof.
  destruct (parsed 0 prompt) eqn:P0.
  { usable_at 0. }
  rewrite retryLoop_unusable by (try lia; exact P0). simpl Nat.leb. cbv iota.
  destruct (parsed 1 prompt) eqn:P1.
  { usable_at 1. }
  rewrite retryLoop_unusable by (try lia; exact P1). simpl Nat.leb. cbv iota.
  destruct (parsed 2 prompt) eqn:P2.
  { usable_at 2. }
  rewrite retryLoop_unusable by (try lia; exact P2). simpl Nat.leb. cbv iota.
  destruct (parsed 3 prompt) eqn:P3.
  { usable_at 3. }
  rewrite retryLoop_unusable by (try lia; exact P3). simpl Nat.leb. cbv iota.
  destruct (parsed 4 prompt) eqn:P4.
  { usable_at 4. }
  rewrite retryLoop_unusable by (try lia; exact P4). simpl Nat.leb. cbv iota.
  right. split; [earlier_failed|reflexivity].
Qed.

End PipelineFacts.

(** C3. [analyzeCode] never sends more than 5 requests. With the credential
    present it sends between 1 and 5; its effects are a prefix of request,
    sleep 1000, request, sleep 2000, request, sleep 4000, request,
    sleep 8000, request, so the delays between consecutive attempts are
    1000, 2000, 4000, 8000, which is 1000 * 2^(attempt-1); the terminal error
    is thrown only after the 5th request; and when every attempt fails the
    call throws that error after exactly 5 requests and these four sleeps. *)
Theorem analyzeCode_retry_schedule :
  forall API_KEY JSON_parse generateContent code,
    let prompt := Gemini.cleanCode code in
    let out := Gemini.analyzeCode API_KEY JSON_parse generateContent code in
    let w := snd out in
    Gemini.requests w <= 5 /\
    (forall c key, API_KEY = Some (c :: key) ->
     1 <= Gemini.requests w /\
     Gemini.effects w =
       firstn (2 * Gemini.requests w - 1)
         [Gemini.Request prompt; Gemini.Sleep 1000; Gemini.Request prompt;
          Gemini.Sleep 2000; Gemini.Request prompt; Gemini.Sleep 4000;
          Gemini.Request prompt; Gemini.Sleep 8000; Gemini.Request prompt] /\
     Gemini.sleeps (Gemini.effects w) =
       firstn (Gemini.requests w - 1)
         (map (fun attempt => 1000 * 2 ^ (attempt - 1))%Z [1; 2; 3; 4]%Z) /\
     (fst out = Throw Gemini.failedAfterRetries -> Gemini.requests w = 5) /\
     ((forall n, n < 5 ->
         Gemini.parsedReply JSON_parse (generateContent n prompt) = None) ->
      fst out = Throw Gemini.failedAfterRetries /\
      Gemini.requests w = 5 /\
      Gemini.sleeps (Gemini.effects w) = [1000; 2000; 4000; 8000]%Z)).
Proof.
  intros API_KEY JSON_parse generateContent code prompt out w.
  assert (Hkey : forall c key, API_KEY = Some (c :: key) ->
                 out = Gemini.retryLoop JSON_parse generateContent prompt 0
                         Gemini.world0).
  { intros c key ->. reflexivity. }
  pose proof (retryLoop_outcome JSON_parse generateContent prompt) as Hloop.
  split.
  - subst w out. unfold Gemini.analyzeCode. fold prompt.
    destruct API_KEY as [[|c key]|]; simpl; try lia.
    destruct Hloop as [(k & d & Hk & _ & _ & ->)|[_ ->]]; simpl; lia.
  - intros c key HK. subst w. rewrite (Hkey c key HK). clear Hkey HK out.
    destruct Hloop as [(k & d & Hk & Hbefore & Hat & ->)|[Hall ->]];
      simpl fst; simpl snd; cbn [Gemini.requests Gemini.effects].
    + assert (Hcases : k = 0 \/ k = 1 \/ k = 2 \/ k = 3 \/ k = 4) by lia.
      split; [lia|].
      split; [destruct Hcases as [->|[->|[->|[->| ->]]]]; reflexivity|].
      split; [destruct Hcases as [->|[->|[->|[->| ->]]]]; reflexivity|].
      split; [discriminate|].
      intros Hfail. rewrite (Hfail k Hk) in Hat. discriminate.
    + repeat split; try lia; reflexivity.
Qed.

Lemma analyzeCode_retry_schedule_witness :
  Gemini.analyzeCode (Some (js "key")) Gemini.parseFragment
    (fun _ _ => Gemini.Resolved (Some (js "<html>"))) (js " print(x) ")
  = (Throw Gemini.failedAfterRetries,
     {| Gemini.requests := 5;
        Gemini.effects := Gemini.fullSchedule (js "print(x)") |}) /\
  Gemini.sleeps
    (Gemini.effects
       (snd (Gemini.analyzeCode (Some (js "key")) Gemini.parseFragment
               (fun _ _ => Gemini.Resolved (Some (js "<html>")))
               (js " print(x) "))))
  = [1000; 2000; 4000; 8000]%Z.
Proof.
  split; [vm_compute; reflexivity|].
  destruct (analyzeCode_retry_schedule (Some (js "key")) Gemini.parseFragment
              (fun _ _ => Gemini.Resolved (Some (js "<html>")))
              (js " print(x) ")) as [_ Hkey].
  destruct (Hkey 107%N (js "ey") eq_refl) as (_ & _ & _ & _ & Hfail).
  apply Hfail. intros n _. vm_compute. reflexivity.
Defined.

(** C4, as stated, fails: the reply "{}" parses, has neither [rawError] nor
    [trace], and is returned as the diagnosis at the first attempt. *)
Lemma empty_object_is_accepted :
  Gemini.analyzeCode (Some (js "key")) Gemini.parseFragment
    (fun _ _ => Gemini.Resolved (Some (js "{}"))) (js "print(x)")
  = (Normal (Gemini.JObject []),
     {| Gemini.requests := 1;
        Gemini.effects := [Gemini.Request (js "print(x)")] |}) /\
  Gemini.hasRequiredFields (Gemini.JObject []) = false.
Proof. split; vm_compute; reflexivity. Qed.

Lemma parsedReply_Some JSON_parse (r : Gemini.Reply) (d : Gemini.JSON) :
  Gemini.parsedReply JSON_parse r = Some d <->
  exists text,
    r = Gemini.Resolved (Some text) /\ text <> [] /\
    JSON_parse text = Some d /\ d <> Gemini.JNull.
Proof.
  unfold Gemini.parsedReply. split.
  - destruct r as [?|[[|u text]|]]; try discriminate.
    destruct (JSON_parse (u :: text)) as [v|] eqn:E; [|discriminate].
    intros H. exists (u :: text).
    destruct v; try discriminate; injection H as <-;
      repeat split; auto; discriminate.
  - intros (text & -> & Hne & Hparse & Hd).
    destruct text as [|u text]; [contradiction|].
    rewrite Hparse. destruct d; try reflexivity. contradiction.
Qed.

Lemma parsedReply_None JSON_parse (r : Gemini.Reply) :
  Gemini.parsedReply JSON_parse r = None <->
  (exists reason, r = Gemini.Rejected reason) \/
  r = Gemini.Resolved None \/
  r = Gemini.Resolved (Some []) \/
  exists text,
    r = Gemini.Resolved (Some text) /\
    (JSON_parse text = None \/ JSON_parse text = Some Gemini.JNull).
Proof.
  unfold Gemini.parsedReply. split.
  - destruct r as [reason|[[|u text]|]]; eauto.
    destruct (JSON_parse (u :: text)) as [v|] eqn:E.
    + destruct v; try discriminate. intros _.
      right; right; right. exists (u :: text). auto.
    + intros _. right; right; right. exists (u :: text). auto.
  - intros [[reason ->]|[->|[->|(text & -> & Hp)]]]; try reflexivity.
    destruct text as [|u text]; [reflexivity|].
    destruct Hp as [-> | ->]; reflexivity.
Qed.

(** C4, amended. [analyzeCode] returns a value as the diagnosis exactly when
    one of the at most 5 replies resolved with a non-empty text that
    [JSON.parse] accepts as a value other than [null], every earlier reply
    being unusable; the value is the parsed text as it is, whether or not it
    has [rawError] and [trace]. A reply is unusable, and leads to the retry
    path, only when the call is rejected, the text is missing or empty, the
    text does not parse, or it parses to [null]. *)
Theorem analyzeCode_accepts_first_parseable :
  forall JSON_parse generateContent c key code d,
    let prompt := Gemini.cleanCode code in
    (fst (Gemini.analyzeCode (Some (c :: key)) JSON_parse generateContent code)
       = Normal d
     <->
     exists k text,
       k < 5 /\
       generateContent k prompt = Gemini.Resolved (Some text) /\
       text <> [] /\
       JSON_parse text = Some d /\
       d <> Gemini.JNull /\
       forall n, n < k ->
         Gemini.parsedReply JSON_parse (generateContent n prompt) = None) /\
    (forall r,
       Gemini.parsedReply JSON_parse r = None <->
       (exists reason, r = Gemini.Rejected reason) \/
       r = Gemini.Resolved None \/
       r = Gemini.Resolved (Some []) \/
       exists text,
         r = Gemini.Resolved (Some text) /\
         (JSON_parse text = None \/ JSON_parse text = Some Gemini.JNull)).
Proof.
  intros JSON_parse generateContent c key code d prompt.
  split; [|intros r; apply parsedReply_None].
  unfold Gemini.analyzeCode. fold prompt.
  destruct (retryLoop_outcome JSON_parse generateContent prompt)
    as [(k & d' & Hk & Hbefore & Hat & ->)|[Hall ->]]; simpl fst.
  - split.
    + intros Hd. injection Hd as ->. exists k.
      apply parsedReply_Some in Hat.
      destruct Hat as (text & Hreply & Hne & Hparse & Hnull).
      exists text. repeat split; auto.
    + intros (k' & text & Hk' & Hreply & Hne & Hparse & Hnull & Hbefore').
      assert (Hat' : Gemini.parsedReply JSON_parse (generateContent k' prompt)
                     = Some d).
      { apply parsedReply_Some. exists text. auto. }
      destruct (Nat.lt_trichotomy k k') as [Hlt|[->|Hgt]].
      * rewrite (Hbefore' k Hlt) in Hat. discriminate.
      * congruence.
      * rewrite (Hbefore k' Hgt) in Hat'. discriminate.
  - split; [discriminate|].
    intros (k' & text & Hk' & Hreply & Hne & Hparse & Hnull & _).
    assert (Hat' : Gemini.parsedReply JSON_parse (generateContent k' prompt)
                   = Some d).
    { apply parsedReply_Some. exists text. auto. }
    rewrite (Hall k' Hk') in Hat'. discriminate.
Qed.

(** The literal [null] is parsed and then refused: the attempt fails at the
    log line, so five such replies end in the terminal error. *)
Example null_reply_is_retried :
  Gemini.analyzeCode (Some (js "key")) Gemini.parseFragment
    (fun _ _ => Gemini.Resolved (Some (js "null"))) (js "print(x)")
  = (Throw Gemini.failedAfterRetries,
     {| Gemini.requests := 5;
        Gemini.effects := Gemini.fullSchedule (js "print(x)") |}).
Proof. vm_compute. reflexivity. Qed.

(* ===================================================================== *)
(** * Further properties *)
(* ===================================================================== *)

(** ** [cleanCode] *)

Lemma replace_nbsp_ws (c : N) :
  isWhiteSpace (if N.eqb c 160 then 32%N else c) = isWhiteSpace c.
Proof. destruct (N.eqb_spec c 160) as [->|]; reflexivity. Qed.

Lemma trimStart_replace_nbsp (s : jsstring) :
  trimStart (replace_nbsp s) = replace_nbsp (trimStart s).
Proof.
  induction s as [|c s IH]; simpl; [reflexivity|].
  rewrite replace_nbsp_ws. destruct (isWhiteSpace c); [exact IH|reflexivity].
Qed.

Lemma trim_replace_nbsp (s : jsstring) :
  trim (replace_nbsp s) = replace_nbsp (trim s).
Proof.
  unfold trim, trimEnd. rewrite trimStart_replace_nbsp.
  unfold replace_nbsp at 1. rewrite <- map_rev.
  fold (replace_nbsp (List.rev (trimStart s))).
  rewrite trimStart_replace_nbsp. unfold replace_nbsp. rewrite map_rev.
  reflexivity.
Qed.

Lemma trimStart_head (s : jsstring) (c : N) (rest : jsstring) :
  trimStart s = c :: rest -> isWhiteSpace c = false.
Proof.
  induction s as [|x s IH]; simpl; [discriminate|].
  destruct (isWhiteSpace x) eqn:E; [exact IH|].
  intros H. injection H as <- _. exact E.
Qed.

Lemma trimStart_length (s : jsstring) : length (trimStart s) <= length s.
Proof.
  induction s as [|x s IH]; simpl; [lia|].
  destruct (isWhiteSpace x); simpl; lia.
Qed.

Lemma trimStart_snoc (s : jsstring) (c : N) :
  isWhiteSpace c = false -> trimStart (s ++ [c]) = trimStart s ++ [c].
Proof.
  intros Hc. induction s as [|x s IH]; simpl; [rewrite Hc; reflexivity|].
  destruct (isWhiteSpace x); [exact IH|reflexivity].
Qed.

Lemma trimEnd_cons (c : N) (s : jsstring) :
  isWhiteSpace c = false -> trimEnd (c :: s) = c :: trimEnd s.
Proof.
  intros Hc. unfold trimEnd. simpl.
  rewrite trimStart_snoc by exact Hc. rewrite rev_app_distr. reflexivity.
Qed.

Lemma trimEnd_last (s front : jsstring) (c : N) :
  trimEnd s = front ++ [c] -> isWhiteSpace c = false.
Proof.
  unfold trimEnd. intros H.
  apply (f_equal (@List.rev N)) in H.
  rewrite rev_involutive, rev_app_distr in H. simpl in H.
  apply trimStart_head in H. exact H.
Qed.

Lemma trimStart_fixed (s : jsstring) :
  (forall c rest, s = c :: rest -> isWhiteSpace c = false) -> trimStart s = s.
Proof.
  destruct s as [|c s]; intros H; simpl; [reflexivity|].
  rewrite (H c s eq_refl). reflexivity.
Qed.

Lemma trim_head (s : jsstring) (c : N) (rest : jsstring) :
  trim s = c :: rest -> isWhiteSpace c = false.
Proof.
  unfold trim. destruct (trimStart s) as [|x t] eqn:E.
  - unfold trimEnd. simpl. discriminate.
  - pose proof (trimStart_head s x t E) as Hx.
    rewrite trimEnd_cons by exact Hx. intros H. injection H as <- _. exact Hx.
Qed.

Lemma trimStart_idempotent (s : jsstring) :
  trimStart (trimStart s) = trimStart s.
Proof.
  apply trimStart_fixed. intros c rest H. exact (trimStart_head s c rest H).
Qed.

Lemma trim_idempotent (s : jsstring) : trim (trim s) = trim s.
Proof.
  unfold trim at 1.
  rewrite (trimStart_fixed (trim s))
    by (intros c rest H; exact (trim_head s c rest H)).
  unfold trim, trimEnd. rewrite rev_involutive, trimStart_idempotent.
  reflexivity.
Qed.

Lemma replace_nbsp_none (s : jsstring) : ~ In 160%N (replace_nbsp s).
Proof.
  unfold replace_nbsp. rewrite in_map_iff. intros (c & Hc & _).
  destruct (N.eqb_spec c 160); [discriminate|congruence].
Qed.

Lemma replace_nbsp_fixed (s : jsstring) :
  ~ In 160%N s -> replace_nbsp s = s.
Proof.
  intros H. unfold replace_nbsp. rewrite <- (map_id s) at 2.
  apply map_ext_in. intros c Hc.
  destruct (N.eqb_spec c 160); [subst; contradiction|reflexivity].
Qed.

Lemma trim_length (s : jsstring) : length (trim s) <= length s.
Proof.
  unfold trim, trimEnd. rewrite length_rev.
  pose proof (trimStart_length (List.rev (trimStart s))) as H.
  rewrite length_rev in H. pose proof (trimStart_length s). lia.
Qed.

(** X1. The text [cleanCode] hands to the prompt holds no non-breaking
    space, neither starts nor ends with a white space character, is not
    longer than the submission, and is left as it is by a second cleaning. *)
Theorem cleanCode_is_clean :
  forall code,
    let cleaned := Gemini.cleanCode code in
    ~ In 160%N cleaned /\
    (forall c rest, cleaned = c :: rest -> isWhiteSpace c = false) /\
    (forall front c, cleaned = front ++ [c] -> isWhiteSpace c = false) /\
    length cleaned <= length code /\
    Gemini.cleanCode cleaned = cleaned.
Proof.
  intros code cleaned. subst cleaned. unfold Gemini.cleanCode.
  assert (Hnone : ~ In 160%N (trim (replace_nbsp code))).
  { rewrite trim_replace_nbsp. apply replace_nbsp_none. }
  split; [exact Hnone|].
  split; [intros c rest H; exact (trim_head _ c rest H)|].
  split; [intros front c H; exact (trimEnd_last _ front c H)|].
  split.
  - pose proof (trim_length (replace_nbsp code)) as H.
    unfold replace_nbsp in H at 2. rewrite length_map in H. exact H.
  - rewrite (replace_nbsp_fixed _ Hnone). apply trim_idempotent.
Qed.

(** X2. Cleaning commutes with trimming, so the cleaned text is empty
    exactly when the submission is blank, i.e. exactly when the guard of
    [handleDiagnose] ([!code.trim()]) stops it. *)
Theorem cleanCode_empty_iff_blank :
  forall code,
    Gemini.cleanCode code = replace_nbsp (trim code) /\
    (Gemini.cleanCode code = [] <-> trim code = []).
Proof.
  intros code. unfold Gemini.cleanCode. rewrite trim_replace_nbsp.
  split; [reflexivity|].
  unfold replace_nbsp. destruct (trim code); simpl; split; congruence.
Qed.

(** ** [analyzeCode]: credential, outcomes and waiting time *)

(** X3. [analyzeCode] sends no request exactly when the credential is
    missing or empty, and exactly then it throws the "API Key is missing"
    error; nothing is slept in that case. *)
Theorem analyzeCode_missing_key :
  forall API_KEY JSON_parse generateContent code,
    let out := Gemini.analyzeCode API_KEY JSON_parse generateContent code in
    ((API_KEY = None \/ API_KEY = Some []) <->
     Gemini.requests (snd out) = 0) /\
    (Gemini.requests (snd out) = 0 <-> fst out = Throw Gemini.apiKeyMissing) /\
    (Gemini.requests (snd out) = 0 -> Gemini.effects (snd out) = []).
Proof.
  intros API_KEY JSON_parse generateContent code out. subst out.
  unfold Gemini.analyzeCode.
  destruct API_KEY as [[|c key]|]; simpl.
  - repeat split; auto.
  - destruct (retryLoop_outcome JSON_parse generateContent
                (Gemini.cleanCode code))
      as [(k & d & _ & _ & _ & ->)|[_ ->]]; simpl;
      (split; [split; [intros [H|H]; discriminate H|discriminate]|]);
      (split; [split; discriminate|discriminate]).
  - repeat split; auto.
Qed.

(** X4. [analyzeCode] ends in one of three ways: it returns the parsed
    reply, throws the terminal "failed after retries" error, or throws the
    "API Key is missing" error. The throw after the loop (line 147) is never
    reached. *)
Theorem analyzeCode_outcomes :
  forall API_KEY JSON_parse generateContent code,
    let out := Gemini.analyzeCode API_KEY JSON_parse generateContent code in
    ((exists d, fst out = Normal d) \/
     fst out = Throw Gemini.failedAfterRetries \/
     fst out = Throw Gemini.apiKeyMissing) /\
    fst out <> Throw "Unexpected error in retry loop.".
Proof.
  intros API_KEY JSON_parse generateContent code out. subst out.
  unfold Gemini.analyzeCode.
  destruct API_KEY as [[|c key]|]; simpl;
    try (split; [right; right; reflexivity|discriminate]).
  destruct (retryLoop_outcome JSON_parse generateContent
              (Gemini.cleanCode code))
    as [(k & d & _ & _ & _ & ->)|[_ ->]]; simpl.
  - split; [left; exists d; reflexivity|discriminate].
  - split; [right; left; reflexivity|discriminate].
Qed.

(** X5. The time [analyzeCode] spends sleeping is 1000 * (2^(n-1) - 1)
    milliseconds when it sent n >= 1 requests, hence never more than
    15 seconds. *)
Theorem analyzeCode_total_sleep :
  forall API_KEY JSON_parse generateContent code,
    let w := snd (Gemini.analyzeCode API_KEY JSON_parse generateContent code) in
    (0 <= Waiting.totalSleep w <= 15000)%Z /\
    (1 <= Gemini.requests w ->
     Waiting.totalSleep w =
       (1000 * (2 ^ (Z.of_nat (Gemini.requests w) - 1) - 1))%Z).
Proof.
  intros API_KEY JSON_parse generateContent code w. subst w.
  unfold Gemini.analyzeCode.
  destruct API_KEY as [[|c key]|]; simpl;
    try (split; [unfold Waiting.totalSleep; simpl; lia|lia]).
  destruct (retryLoop_outcome JSON_parse generateContent
              (Gemini.cleanCode code))
    as [(k & d & Hk & _ & _ & ->)|[_ ->]]; simpl snd.
  - assert (Hcases : k = 0 \/ k = 1 \/ k = 2 \/ k = 3 \/ k = 4) by lia.
    destruct Hcases as [->|[->|[->|[->| ->]]]];
      (split; [vm_compute; split; discriminate|intros _; reflexivity]).
  - split; [vm_compute; split; discriminate|intros _; reflexivity].
Qed.

(** X6. With the credential present, when the first [k] replies (k < 5) are
    unusable and the next one parses to [d], [analyzeCode] returns [d]
    after exactly [k + 1] requests, having slept the first [k] delays of
    1000, 2000, 4000, 8000 between them; later replies are never asked
    for. *)
Theorem analyzeCode_succeeds_after_failures :
  forall JSON_parse generateContent c key code k d,
    let prompt := Gemini.cleanCode code in
    k < 5 ->
    (forall n, n < k ->
       Gemini.parsedReply JSON_parse (generateContent n prompt) = None) ->
    Gemini.parsedReply JSON_parse (generateContent k prompt) = Some d ->
    Gemini.analyzeCode (Some (c :: key)) JSON_parse generateContent code =
      (Normal d,
       {| Gemini.requests := S k;
          Gemini.effects := firstn (2 * k + 1) (Gemini.fullSchedule prompt) |}) /\
    Gemini.sleeps (firstn (2 * k + 1) (Gemini.fullSchedule prompt)) =
      firstn k [1000; 2000; 4000; 8000]%Z.
Proof.
  intros JSON_parse generateContent c key code k d prompt Hk Hbefore Hat.
  split.
  - unfold Gemini.analyzeCode. fold prompt.
    destruct (retryLoop_outcome JSON_parse generateContent prompt)
      as [(k' & d' & Hk' & Hbefore' & Hat' & ->)|[Hall _]].
    + destruct (Nat.lt_trichotomy k k') as [Hlt|[<-|Hgt]].
      * rewrite (Hbefore' k Hlt) in Hat. discriminate.
      * rewrite Hat in Hat'. injection Hat' as <-. reflexivity.
      * rewrite (Hbefore k' Hgt) in Hat'. discriminate.
    + rewrite (Hall k Hk) in Hat. discriminate.
  - assert (Hcases : k = 0 \/ k = 1 \/ k = 2 \/ k = 3 \/ k = 4) by lia.
    destruct Hcases as [->|[->|[->|[->| ->]]]]; reflexivity.
Qed.

Lemma analyzeCode_succeeds_after_failures_witness :
  Gemini.analyzeCode (Some (js "key")) Gemini.parseFragment
    (Waiting.failsThenAnswers 2 (js "[7]")) (js "print(x)")
  = (Normal (Gemini.JArray [Gemini.JNumber 7]),
     {| Gemini.requests := 3;
        Gemini.effects :=
          [Gemini.Request (js "print(x)"); Gemini.Sleep 1000;
           Gemini.Request (js "print(x)"); Gemini.Sleep 2000;
           Gemini.Request (js "print(x)")] |}).
Proof.
  refine (proj1 (analyzeCode_succeeds_after_failures Gemini.parseFragment
                   (Waiting.failsThenAnswers 2 (js "[7]"))
                   107%N (js "ey") (js "print(x)") 2
                   (Gemini.JArray [Gemini.JNumber 7]) _ _ _)).
  - lia.
  - intros n Hn. destruct n as [|[|n]]; [reflexivity|reflexivity|lia].
  - vm_compute. reflexivity.
Defined.

(** ** Answer histories *)

Lemma recordAll_snoc (answers : list bool) (a : bool) (s : Stats) :
  History.recordAll (answers ++ [a]) s =
  App.newStats a (History.recordAll answers s).
Proof. unfold History.recordAll. rewrite fold_left_app. reflexivity. Qed.

Lemma misses_snoc (answers : list bool) (a : bool) :
  History.misses (answers ++ [a]) =
  History.misses answers + (if a then 0 else 1).
Proof.
  unfold History.misses. rewrite filter_app, length_app.
  destruct a; reflexivity.
Qed.

Lemma trailingCorrect_snoc (answers : list bool) (a : bool) :
  History.trailingCorrect (answers ++ [a]) =
  if a then S (History.trailingCorrect answers) else 0.
Proof.
  unfold History.trailingCorrect. rewrite rev_app_distr. simpl.
  destruct a; reflexivity.
Qed.

Lemma misses_le_length (answers : list bool) :
  History.misses answers <= length answers.
Proof. unfold History.misses. apply filter_length_le. Qed.

(** X7. For a card created by ingestion and any history of answers recorded
    on it: [incorrectCount] is the number of incorrect answers and
    [correctStreak] the number of correct answers that end the history; the
    card is mastered when that run is at least 3 and learning when it is 1
    or 2; it is critical when the last answer was incorrect and at least 3
    answers were; and it is still new exactly when every answer so far was
    incorrect and there were fewer than 3. *)
Theorem stats_after_history :
  forall answers,
    let s := History.recordAll answers App.freshStats in
    incorrectCount s = Z.of_nat (History.misses answers) /\
    correctStreak s = Z.of_nat (History.trailingCorrect answers) /\
    (3 <= History.trailingCorrect answers -> status s = Mastered) /\
    (1 <= History.trailingCorrect answers < 3 -> status s = Learning) /\
    (answers <> [] -> History.trailingCorrect answers = 0 ->
     3 <= History.misses answers -> status s = Critical) /\
    (status s = New <->
     History.misses answers = length answers /\ History.misses answers < 3).
Proof.
  intros answers. cbv zeta.
  induction answers as [|a answers IH] using rev_ind.
  - unfold History.trailingCorrect, History.misses. simpl.
    repeat split; intros; try reflexivity; try lia; try congruence.
  - destruct IH as (Hm & Hs & _ & _ & _ & Hnew).
    rewrite recordAll_snoc, misses_snoc, trailingCorrect_snoc, length_app.
    pose proof (misses_le_length answers) as Hle.
    set (prev := History.recordAll answers App.freshStats) in *.
    destruct a; simpl.
    + rewrite Hs.
      destruct (Z.leb_spec 3 (Z.of_nat (History.trailingCorrect answers) + 1)).
      * repeat split; try lia; try congruence; intros; lia.
      * repeat split; try lia; try congruence; intros; lia.
    + rewrite Hm.
      destruct (Z.leb_spec 3 (Z.of_nat (History.misses answers) + 1)).
      * repeat split; try lia; try congruence; intros; lia.
      * split; [lia|]. split; [reflexivity|]. split; [lia|]. split; [lia|].
        split; [lia|]. rewrite Hnew. lia.
Qed.

Lemma recordAnswers_nth (answers : list bool) (prev : list Flashcard)
    (i : nat) (card : Flashcard) :
  nth_error prev i = Some card ->
  nth_error (Samples.recordAnswers (id card) answers prev) i =
  Some {| data := data card; id := id card;
          stats := History.recordAll answers (stats card) |}.
Proof.
  revert prev card. unfold Samples.recordAnswers, History.recordAll.
  induction answers as [|a answers IH]; intros prev card Hnth; simpl.
  - rewrite Hnth. destruct card; reflexivity.
  - pose proof (handleUpdateCard_nth (id card) a prev i card Hnth) as Hstep.
    rewrite streq_refl in Hstep. simpl in Hstep.
    specialize (IH _ _ Hstep). simpl in IH. exact IH.
Qed.

Lemma handleUpdateCard_ids (cardId : jsstring) (isCorrect : bool)
    (prev : list Flashcard) :
  map id (App.handleUpdateCard cardId isCorrect prev) = map id prev /\
  map data (App.handleUpdateCard cardId isCorrect prev) = map data prev.
Proof.
  unfold App.handleUpdateCard. rewrite !map_map.
  split; apply map_ext; intros c;
    destruct (negb (streq (id c) cardId)); reflexivity.
Qed.

(** X8. Recording any sequence of answers on a card never adds, removes,
    reorders or renames cards: ids and card texts stay, position by
    position, so distinct ids stay distinct; the answered card ends with the
    stats of its history, and every card with another id is left as it
    was. *)
Theorem recordAnswers_keeps_collection :
  forall answers prev i card,
    nth_error prev i = Some card ->
    let next := Samples.recordAnswers (id card) answers prev in
    map id next = map id prev /\
    map data next = map data prev /\
    (NoDup (map id prev) -> NoDup (map id next)) /\
    nth_error next i =
      Some {| data := data card; id := id card;
              stats := History.recordAll answers (stats card) |} /\
    (forall j other, nth_error prev j = Some other -> id other <> id card ->
       nth_error next j = Some other).
Proof.
  intros answers prev i card Hnth next. subst next.
  assert (Hids : forall l,
             map id (Samples.recordAnswers (id card) answers l) = map id l /\
             map data (Samples.recordAnswers (id card) answers l) = map data l).
  { unfold Samples.recordAnswers.
    induction answers as [|a answers IH]; intros l; simpl; [auto|].
    destruct (IH (App.handleUpdateCard (id card) a l)) as [H1 H2].
    destruct (handleUpdateCard_ids (id card) a l) as [H3 H4].
    split; congruence. }
  destruct (Hids prev) as [Hid Hdata].
  split; [exact Hid|]. split; [exact Hdata|].
  split; [rewrite Hid; auto|].
  split; [apply recordAnswers_nth; exact Hnth|].
  intros j other Hj Hne. unfold Samples.recordAnswers.
  clear Hids Hid Hdata Hnth. revert prev Hj.
  induction answers as [|a answers IH]; intros prev Hj; simpl; [exact Hj|].
  apply IH. rewrite (handleUpdateCard_nth (id card) a prev j other Hj).
  apply streq_false_iff in Hne. rewrite Hne. reflexivity.
Qed.

Lemma recordAnswers_keeps_collection_witness :
  nth_error
    (Samples.recordAnswers (js "1700000000000-0") [false; true; true; true]
       Samples.freshPair) 0
  = Some (Samples.card Samples.draftA "1700000000000-0" 3 1 Mastered).
Proof.
  exact (proj1 (proj2 (proj2 (proj2
           (recordAnswers_keeps_collection [false; true; true; true]
              Samples.freshPair 0
              (Samples.card Samples.draftA "1700000000000-0" 0 0 New)
              eq_refl))))).
Defined.

(** ** The review session, continued *)

Lemma NoDup_map_eq {A B : Type} (f : A -> B) (l : list A) (a b : A) :
  NoDup (map f l) -> In a l -> In b l -> f a = f b -> a = b.
Proof.
  induction l as [|x l IH]; simpl; intros Hnd Ha Hb Hf; [contradiction|].
  inversion Hnd as [|y m Hnotin Hnd']; subst.
  destruct Ha as [->|Ha], Hb as [->|Hb]; auto.
  - exfalso. apply Hnotin. rewrite Hf. apply in_map. exact Hb.
  - exfalso. apply Hnotin. rewrite <- Hf. apply in_map. exact Ha.
Qed.

Lemma currentCard_active (s : Review.Session) (card : Flashcard) :
  Review.currentCard s = Some card ->
  In card (Review.cards s) /\ App.notMastered card = true /\
  Review.currentIndex s < length (Review.activeCards (Review.cards s)).
Proof.
  unfold Review.currentCard. intros H.
  pose proof (nth_error_In _ _ H) as Hin.
  unfold Review.activeCards in Hin. apply filter_In in Hin.
  destruct Hin as [Hin Hnm]. repeat split; auto.
  apply nth_error_Some. congruence.
Qed.

Lemma handleCheck_cards (s s' : Review.Session) (card : Flashcard) :
  Review.currentCard s = Some card ->
  Review.handleCheck s = Some s' ->
  Review.cards s' =
    App.handleUpdateCard (id card)
      (Review.isCorrect (Review.userInput s) (backCode (data card)))
      (Review.cards s) /\
  Review.currentIndex s' = Review.currentIndex s.
Proof.
  intros Hcur Hcheck. unfold Review.handleCheck in Hcheck.
  rewrite (currentCard_render s card Hcur) in Hcheck.
  injection Hcheck as <-. unfold Review.resetOnChange; simpl.
  match goal with |- context [if ?b then _ else _] => destruct b end;
    split; reflexivity.
Qed.

(** X9. In a review of a collection with distinct ids, checking an answer
    changes the card that is shown and no other: every other card, and so
    every mastered card, is exactly as before. *)
Theorem handleCheck_touches_shown_card_only :
  forall s card s',
    NoDup (map id (Review.cards s)) ->
    Review.currentCard s = Some card ->
    Review.handleCheck s = Some s' ->
    length (Review.cards s') = length (Review.cards s) /\
    (forall j other, nth_error (Review.cards s) j = Some other ->
       other <> card -> nth_error (Review.cards s') j = Some other) /\
    (forall c, In c (Review.cards s) -> status (stats c) = Mastered ->
       In c (Review.cards s')).
Proof.
  intros s card s' Hnd Hcur Hcheck.
  destruct (handleCheck_cards s s' card Hcur Hcheck) as [Hcards _].
  destruct (currentCard_active s card Hcur) as (Hin & Hnm & _).
  assert (Hother : forall j other, nth_error (Review.cards s) j = Some other ->
            other <> card -> nth_error (Review.cards s') j = Some other).
  { intros j other Hj Hne. rewrite Hcards.
    rewrite (handleUpdateCard_nth _ _ _ j other Hj).
    assert (Hid : id other <> id card).
    { intros Heq. apply Hne.
      apply (NoDup_map_eq id (Review.cards s)); auto.
      apply (nth_error_In _ _ Hj). }
    apply streq_false_iff in Hid. rewrite Hid. reflexivity. }
  split; [rewrite Hcards; apply handleUpdateCard_length|].
  split; [exact Hother|].
  intros c Hc Hm. apply In_nth_error in Hc. destruct Hc as [j Hj].
  apply (nth_error_In _ j). apply Hother; [exact Hj|].
  intros ->. unfold App.notMastered in Hnm. rewrite Hm in Hnm. discriminate.
Qed.

Lemma handleCheck_touches_shown_card_only_witness :
  exists s',
    Review.handleCheck
      {| Review.cards := [Samples.card Samples.draftA "a" 3 0 Mastered;
                          Samples.card Samples.draftB "b" 0 0 New];
         Review.currentIndex := 0; Review.userInput := js "x";
         Review.showResult := None |} = Some s' /\
    nth_error (Review.cards s') 0 =
      Some (Samples.card Samples.draftA "a" 3 0 Mastered).
Proof.
  eexists. split; [reflexivity|].
  refine (proj1 (proj2
    (handleCheck_touches_shown_card_only
       {| Review.cards := [Samples.card Samples.draftA "a" 3 0 Mastered;
                           Samples.card Samples.draftB "b" 0 0 New];
          Review.currentIndex := 0; Review.userInput := js "x";
          Review.showResult := None |}
       (Samples.card Samples.draftB "b" 0 0 New) _ _ eq_refl eq_refl))
    0 _ eq_refl _).
  - repeat constructor; simpl; intuition discriminate.
  - discriminate.
Defined.

Lemma handleNext_facts (s : Review.Session) (card : Flashcard) :
  Review.currentCard s = Some card ->
  exists s', Review.handleNext s = Some s' /\ Review.pointerValid s'.
Proof.
  intros Hcur. unfold Review.handleNext.
  rewrite (currentCard_render s card Hcur).
  eexists. split; [reflexivity|].
  destruct (currentCard_active s card Hcur) as (_ & _ & Hlt).
  unfold Review.pointerValid. simpl. rewrite nextIndex_spec.
  destruct (Nat.ltb_spec (S (Review.currentIndex s))
              (length (Review.activeCards (Review.cards s)))); lia.
Qed.

(** X11. Whenever a step of the review ends with a result on screen, a card
    is shown with it, so "next" is available and leads to a valid pointer. *)
Theorem feedback_can_be_dismissed :
  forall s a s',
    Review.step s a = Some s' ->
    Review.showResult s' <> None ->
    Review.pointerValid s' /\
    exists s'', Review.step s' Review.Next = Some s'' /\ Review.pointerValid s''.
Proof.
  intros s a s' Hstep Hshown.
  assert (Hvalid : Review.pointerValid s').
  { unfold Review.step in Hstep.
    destruct a, (Review.showResult s) eqn:Esr; try discriminate.
    - destruct (Review.render s); try discriminate.
      injection Hstep as <-. simpl in Hshown. contradiction.
    - unfold Review.handleCheck in Hstep.
      destruct (Review.render s) as [| |card] eqn:Er; try discriminate.
      injection Hstep as <-. unfold Review.resetOnChange in *. simpl in *.
      destruct (Nat.eqb_spec (Review.currentIndex s) (Review.currentIndex s));
        [|contradiction]. simpl in *.
      match goal with
      | |- context [Nat.eqb ?x ?y] => destruct (Nat.eqb_spec x y) as [Hlen|Hlen]
      end; simpl in *; [|contradiction].
      unfold Review.pointerValid. simpl. rewrite <- Hlen.
      unfold Review.render in Er.
      destruct (Review.activeCards (Review.cards s)) eqn:Ea; [discriminate|].
      destruct (Review.currentCard s) eqn:Ec; [|discriminate].
      unfold Review.currentCard in Ec. rewrite Ea in Ec.
      apply nth_error_Some. congruence.
    - unfold Review.handleNext in Hstep.
      destruct (Review.render s); try discriminate.
      injection Hstep as <-. simpl in Hshown. contradiction. }
  split; [exact Hvalid|].
  destruct (Review.showResult s') eqn:Esr; [|contradiction].
  unfold Review.step. rewrite Esr.
  destruct (Review.currentCard s') as [card|] eqn:Ec.
  - destruct (handleNext_facts s' card Ec) as (s'' & Hnext & Hv).
    exists s''. auto.
  - unfold Review.currentCard in Ec. apply nth_error_None in Ec.
    unfold Review.pointerValid in Hvalid. lia.
Qed.

Lemma handleUpdateCard_at (l1 l2 : list Flashcard) (card : Flashcard)
    (ok : bool) :
  NoDup (map id (l1 ++ card :: l2)) ->
  App.handleUpdateCard (id card) ok (l1 ++ card :: l2) =
  l1 ++ {| data := data card; id := id card;
           stats := App.newStats ok (stats card) |} :: l2.
Proof.
  intros Hnd. rewrite map_app in Hnd. simpl in Hnd.
  apply NoDup_remove_2 in Hnd. rewrite in_app_iff in Hnd.
  assert (H1 : App.handleUpdateCard (id card) ok l1 = l1).
  { apply handleUpdateCard_absent. intros c Hc Heq. apply Hnd. left.
    rewrite <- Heq. apply in_map. exact Hc. }
  assert (H2 : App.handleUpdateCard (id card) ok l2 = l2).
  { apply handleUpdateCard_absent. intros c Hc Heq. apply Hnd. right.
    rewrite <- Heq. apply in_map. exact Hc. }
  unfold App.handleUpdateCard in *. rewrite map_app. simpl.
  rewrite streq_refl, H1, H2. reflexivity.
Qed.

Lemma notMastered_after (ok : bool) (card : Flashcard) :
  App.notMastered card = true ->
  App.notMastered {| data := data card; id := id card;
                     stats := App.newStats ok (stats card) |} =
  negb (ok && (3 <=? correctStreak (stats card) + 1)%Z).
Proof.
  unfold App.notMastered, App.newStats. intros Hnm.
  destruct ok; simpl.
  - destruct (3 <=? correctStreak (stats card) + 1)%Z; reflexivity.
  - destruct (3 <=? incorrectCount (stats card) + 1)%Z; [reflexivity|exact Hnm].
Qed.

Lemma nth_error_middle_unique {A : Type} (l1 l2 : list A) (x : A) (i : nat) :
  NoDup (l1 ++ x :: l2) ->
  nth_error (l1 ++ x :: l2) i = Some x -> i = length l1.
Proof.
  intros Hnd Hi.
  apply (proj1 (NoDup_nth_error _) Hnd).
  - apply nth_error_Some. congruence.
  - rewrite Hi. rewrite nth_error_app2 by lia.
    rewrite Nat.sub_diag. reflexivity.
Qed.

(** X10. In a review of a collection with distinct ids, after an answer is
    checked: if the answer does not master the shown card (it is wrong, or
    the new streak is below 3), the same card stays under the pointer with
    its new stats and the result is displayed; if it masters the card, the
    active list loses that card, the result and the typed text are reset,
    and the pointer now reads the card that followed. The pointer stops
    being a valid index exactly when the mastered card was the last of the
    active list. *)
Theorem handleCheck_pointer :
  forall s card s',
    NoDup (map id (Review.cards s)) ->
    Review.currentCard s = Some card ->
    Review.handleCheck s = Some s' ->
    let ok := Review.isCorrect (Review.userInput s) (backCode (data card)) in
    let mastering := ok && (3 <=? correctStreak (stats card) + 1)%Z in
    (mastering = false ->
     Review.currentCard s' =
       Some {| data := data card; id := id card;
               stats := App.newStats ok (stats card) |} /\
     Review.showResult s' = Some ok /\
     length (Review.activeCards (Review.cards s')) =
       length (Review.activeCards (Review.cards s))) /\
    (mastering = true ->
     S (length (Review.activeCards (Review.cards s'))) =
       length (Review.activeCards (Review.cards s)) /\
     Review.showResult s' = None /\
     Review.userInput s' = [] /\
     Review.currentCard s' =
       nth_error (Review.activeCards (Review.cards s))
                 (S (Review.currentIndex s))) /\
    (Review.pointerValid s' <->
     ~ (mastering = true /\
        S (Review.currentIndex s) =
          length (Review.activeCards (Review.cards s)))).
Proof.
  intros s card s' Hnd Hcur Hcheck ok mastering.
  destruct (currentCard_active s card Hcur) as (Hin & Hnm & Hlt).
  apply in_split in Hin. destruct Hin as (l1 & l2 & Hl).
  assert (Hactive : Review.activeCards (Review.cards s) =
                    filter App.notMastered l1 ++ card :: filter App.notMastered l2).
  { unfold Review.activeCards. rewrite Hl, filter_app. simpl.
    rewrite Hnm. reflexivity. }
  assert (Hi : Review.currentIndex s = length (filter App.notMastered l1)).
  { apply (nth_error_middle_unique _ (filter App.notMastered l2) card).
    - rewrite <- Hactive. unfold Review.activeCards. apply NoDup_filter.
      apply (NoDup_map_inv id). exact Hnd.
    - rewrite <- Hactive. exact Hcur. }
  unfold Review.handleCheck in Hcheck.
  rewrite (currentCard_render s card Hcur) in Hcheck.
  injection Hcheck as <-. fold ok.
  rewrite Hl in Hnd.
  pose proof (handleUpdateCard_at l1 l2 card ok Hnd) as Hupd.
  rewrite <- Hl in Hupd.
  assert (Hactive' :
            Review.activeCards (App.handleUpdateCard (id card) ok (Review.cards s)) =
            filter App.notMastered l1 ++
            (if mastering then []
             else [{| data := data card; id := id card;
                      stats := App.newStats ok (stats card) |}]) ++
            filter App.notMastered l2).
  { unfold Review.activeCards. rewrite Hupd, filter_app. simpl.
    rewrite (notMastered_after ok card Hnm). fold mastering.
    destruct mastering; reflexivity. }
  unfold Review.resetOnChange, Review.pointerValid, Review.currentCard.
  cbn [Review.cards Review.currentIndex Review.userInput Review.showResult].
  rewrite Nat.eqb_refl. cbn [andb].
  destruct mastering; cbn [app] in Hactive'; rewrite Hactive', Hactive;
    rewrite !length_app; cbn [length];
    set (n1 := length (filter App.notMastered l1)) in *;
    set (n2 := length (filter App.notMastered l2)) in *.
  - replace (Nat.eqb (n1 + S n2) (n1 + n2)) with false
      by (symmetry; apply Nat.eqb_neq; lia).
    cbn [Review.cards Review.currentIndex Review.userInput Review.showResult].
    rewrite Hactive', !length_app. fold n1 n2.
    split; [discriminate|].
    split.
    + intros _. split; [lia|]. split; [reflexivity|]. split; [reflexivity|].
      rewrite Hi.
      rewrite nth_error_app2 by (fold n1; lia).
      rewrite (nth_error_app2 (filter App.notMastered l1)) by (fold n1; lia).
      fold n1. replace (n1 - n1) with 0 by lia.
      replace (S n1 - n1) with 1 by lia. reflexivity.
    + rewrite Hi. split.
      * intros Hv [_ Hlast]. lia.
      * intros Hnot. destruct n2; [exfalso; apply Hnot; split; [reflexivity|lia]|lia].
  - rewrite Nat.eqb_refl.
    cbn [Review.cards Review.currentIndex Review.userInput Review.showResult].
    rewrite Hactive', !length_app. cbn [length]. fold n1 n2.
    split.
    + intros _. split; [|split; [reflexivity|reflexivity]].
      rewrite Hi. rewrite nth_error_app2 by (fold n1; lia).
      fold n1. rewrite Nat.sub_diag. reflexivity.
    + split; [discriminate|].
      rewrite Hi. split; [intros _ [Hm _]; discriminate|intros _; lia].
Qed.

Lemma handleCheck_pointer_witness :
  exists s',
    Review.handleCheck Scenes.lastCardAboutToBeMastered = Some s' /\
    ~ Review.pointerValid s' /\
    Review.showResult s' = None.
Proof.
  destruct (Review.handleCheck Scenes.lastCardAboutToBeMastered)
    as [s'|] eqn:E; [|vm_compute in E; discriminate E].
  exists s'. split; [reflexivity|].
  assert (Hnd : NoDup (map id (Review.cards Scenes.lastCardAboutToBeMastered))).
  { repeat constructor; simpl; intuition discriminate. }
  destruct (handleCheck_pointer Scenes.lastCardAboutToBeMastered
              (Samples.card Samples.draftB "b" 2 0 Learning) s'
              Hnd eq_refl E) as (_ & Hmastering & Hvalid).
  split.
  - intros Hv. apply (proj1 Hvalid Hv). split; reflexivity.
  - apply (Hmastering eq_refl).
Defined.

Lemma feedback_can_be_dismissed_witness :
  exists s' s'',
    Review.step Scenes.wrongAnswerTyped Review.Check = Some s' /\
    Review.showResult s' = Some false /\
    Review.step s' Review.Next = Some s'' /\
    Review.pointerValid s''.
Proof.
  destruct (Review.step Scenes.wrongAnswerTyped Review.Check)
    as [s'|] eqn:E; [|vm_compute in E; discriminate E].
  assert (Hshown : Review.showResult s' = Some false).
  { vm_compute in E. injection E as <-. reflexivity. }
  assert (Hne : Review.showResult s' <> None) by (rewrite Hshown; discriminate).
  destruct (feedback_can_be_dismissed Scenes.wrongAnswerTyped Review.Check s'
              E Hne) as (_ & s'' & Hnext & Hv).
  exists s', s''. auto.
Defined.

Lemma all_mastered_iff (cs : list Flashcard) :
  filter App.notMastered cs = [] <->
  forall c, In c cs -> status (stats c) = Mastered.
Proof.
  split.
  - intros H c Hc.
    destruct (App.notMastered c) eqn:E.
    + assert (Hin : In c (filter App.notMastered cs))
        by (apply filter_In; auto).
      rewrite H in Hin. contradiction.
    + unfold App.notMastered in E. apply negb_false_iff in E.
      apply status_eqb_Mastered. exact E.
  - intros H. induction cs as [|c cs IH]; simpl; [reflexivity|].
    assert (Hc : App.notMastered c = false).
    { unfold App.notMastered. rewrite (H c (or_introl eq_refl)). reflexivity. }
    rewrite Hc. apply IH. intros d Hd. apply H. right. exact Hd.
Qed.

(** X12. The review shows the "completed" panel exactly when every card of
    the collection is mastered, and nothing at all exactly when some card is
    active but the pointer is not below the number of active cards. In both
    cases no review action (typing, check, next) is possible. *)
Theorem nothing_shown_no_action :
  forall s,
    (Review.render s = Review.Completed <->
     forall c, In c (Review.cards s) -> status (stats c) = Mastered) /\
    (Review.render s = Review.Blank <->
     0 < length (Review.activeCards (Review.cards s)) <= Review.currentIndex s) /\
    ((forall card, Review.render s <> Review.Showing card) ->
     forall a, Review.step s a = None).
Proof.
  intros s. split; [|split].
  - rewrite <- all_mastered_iff. unfold Review.render, Review.activeCards.
    destruct (filter App.notMastered (Review.cards s)) as [|c l] eqn:E.
    + split; reflexivity.
    + split; [|discriminate].
      destruct (Review.currentCard s); discriminate.
  - unfold Review.render, Review.currentCard.
    destruct (Review.activeCards (Review.cards s)) as [|c l] eqn:E.
    + simpl. split; [discriminate|lia].
    + destruct (nth_error (c :: l) (Review.currentIndex s)) eqn:En.
      * split; [discriminate|].
        intros [_ Hle]. apply nth_error_None in Hle. congruence.
      * apply nth_error_None in En. simpl in *. split; [lia|reflexivity].
  - intros Hno a. unfold Review.step, Review.handleCheck, Review.handleNext.
    destruct (Review.render s) as [| |card] eqn:Er;
      [| |exfalso; exact (Hno card eq_refl)];
      destruct a, (Review.showResult s); reflexivity.
Qed.

Lemma nothing_shown_no_action_witness :
  Review.step
    {| Review.cards := [Samples.card Samples.draftA "a" 3 0 Mastered];
       Review.currentIndex := 0; Review.userInput := [];
       Review.showResult := None |} Review.Check = None.
Proof.
  apply (proj2 (proj2 (nothing_shown_no_action
           {| Review.cards := [Samples.card Samples.draftA "a" 3 0 Mastered];
              Review.currentIndex := 0; Review.userInput := [];
              Review.showResult := None |}))).
  intros card. vm_compute. discriminate.
Defined.

(** X13. A click on the flashcard button does nothing when every card is
    mastered, and nothing either when the review is already open (the
    mounted review keeps its pointer). When the review is closed and some
    card is not mastered, the click opens it: the review starts with
    pointer 0, which is valid, and shows the first card of the collection
    that is not mastered. *)
Theorem openReview_shows_first_active :
  forall st mounted,
    let out := Page.openReview st mounted in
    ((forall c, In c (Page.flashcards st) -> status (stats c) = Mastered) ->
     out = (st, mounted)) /\
    (Page.isReviewMode st = true -> out = (st, mounted)) /\
    (Page.isReviewMode st = false ->
     (exists c, In c (Page.flashcards st) /\ status (stats c) <> Mastered) ->
     Page.isReviewMode (fst out) = true /\
     Page.flashcards (fst out) = Page.flashcards st /\
     snd out = Some (Review.open (Page.flashcards st)) /\
     Review.pointerValid (Review.open (Page.flashcards st)) /\
     exists card,
       Review.render (Review.open (Page.flashcards st)) = Review.Showing card /\
       hd_error (filter App.notMastered (Page.flashcards st)) = Some card).
Proof.
  intros st mounted out. subst out.
  unfold Page.openReview, Page.activeCardsCount.
  split; [|split].
  - intros Hall. apply all_mastered_iff in Hall. rewrite Hall. reflexivity.
  - intros Hopen.
    destruct (0 <? length (filter App.notMastered (Page.flashcards st)));
      [|reflexivity].
    rewrite Hopen. destruct st; simpl in *; subst; reflexivity.
  - intros Hclosed (c & Hin & Hnm).
    destruct (filter App.notMastered (Page.flashcards st)) as [|card l] eqn:E.
    + exfalso. apply Hnm.
      exact (proj1 (all_mastered_iff (Page.flashcards st)) E c Hin).
    + simpl. rewrite Hclosed.
      split; [reflexivity|]. split; [reflexivity|]. split; [reflexivity|].
      unfold Review.pointerValid, Review.render, Review.currentCard,
        Review.activeCards, Review.open; simpl. rewrite E. simpl.
      split; [lia|]. exists card. split; reflexivity.
Qed.

Lemma openReview_shows_first_active_witness :
  snd (Page.openReview
         {| Page.code := [];
            Page.diagnosisState :=
              {| Page.dstatus := Page.Idle; Page.result := None;
                 Page.error := None |};
            Page.flashcards := Samples.freshPair;
            Page.isReviewMode := false |} None)
  = Some (Review.open Samples.freshPair).
Proof.
  refine (proj1 (proj2 (proj2
    (proj2 (proj2 (openReview_shows_first_active
       {| Page.code := [];
          Page.diagnosisState :=
            {| Page.dstatus := Page.Idle; Page.result := None;
               Page.error := None |};
          Page.flashcards := Samples.freshPair;
          Page.isReviewMode := false |} None)) eq_refl _)))).
  exists (Samples.card Samples.draftA "1700000000000-0" 0 0 New).
  split; [left; reflexivity|discriminate].
Defined.

(** X14. Purging the mastered cards does not change the review queue: the
    active cards are the same, in the same order, and they are then the
    whole collection. The "mastered" counter of the page is the number of
    mastered cards, and it is 0 after the purge. *)
Theorem purge_keeps_review_queue :
  forall cs,
    let next := App.nextFlashcards (App.clearMasteredCards cs) in
    Review.activeCards next = Review.activeCards cs /\
    Page.activeCardsCount next = Page.activeCardsCount cs /\
    Page.activeCardsCount next = length next /\
    Page.masteredCount cs = Z.of_nat (length (filter App.isMastered cs)) /\
    Page.masteredCount next = 0%Z.
Proof.
  intros cs. cbv zeta.
  unfold Page.masteredCount, Page.activeCardsCount, Review.activeCards,
    App.clearMasteredCards; simpl.
  rewrite filter_idem.
  repeat split; try reflexivity.
  - rewrite (filter_split_length App.isMastered cs) at 1.
    change (fun x => negb (App.isMastered x)) with App.notMastered. lia.
  - lia.
Qed.

(** ** [handleDiagnose] *)

Lemma analyzeCode_world API_KEY JSON_parse generateContent (code : jsstring) :
  let w := snd (Gemini.analyzeCode API_KEY JSON_parse generateContent code) in
  Gemini.requests w <= 5 /\
  exists n, Gemini.effects w = firstn n (Gemini.fullSchedule (Gemini.cleanCode code)).
Proof.
  cbv zeta. unfold Gemini.analyzeCode.
  destruct API_KEY as [[|c key]|]; simpl;
    try (split; [lia|exists 0; reflexivity]).
  destruct (retryLoop_outcome JSON_parse generateContent (Gemini.cleanCode code))
    as [(k & d & Hk & _ & _ & ->)|[_ ->]]; simpl.
  - split; [lia|]. eexists. reflexivity.
  - split; [lia|]. exists 9. reflexivity.
Qed.

Lemma fullSchedule_requests (prompt contents : jsstring) (n : nat) :
  In (Gemini.Request contents) (firstn n (Gemini.fullSchedule prompt)) ->
  contents = prompt.
Proof.
  intros H. apply (In_nth_error) in H. destruct H as [i Hi].
  assert (Hin : In (Gemini.Request contents) (Gemini.fullSchedule prompt)).
  { apply nth_error_In in Hi. revert Hi. generalize (Gemini.fullSchedule prompt).
    clear. intros l. revert n. induction l as [|x l IH]; intros [|n]; simpl; auto.
    - contradiction.
    - intros [->|H]; eauto. }
  simpl in Hin. intuition congruence.
Qed.

(** X15. [handleDiagnose] on a blank submission changes nothing and sends
    nothing. Whatever the submission, it sends at most 5 requests, and every
    request carries the cleaned submission, which is never empty. *)
Theorem handleDiagnose_requests :
  forall API_KEY JSON_parse generateContent greaterThanZero asDraft clock st,
    let out := Page.handleDiagnose API_KEY JSON_parse generateContent
                 greaterThanZero asDraft clock st in
    (trim (Page.code st) = [] -> out = (st, Gemini.world0)) /\
    Gemini.requests (snd out) <= 5 /\
    (forall contents, In (Gemini.Request contents) (Gemini.effects (snd out)) ->
       contents = Gemini.cleanCode (Page.code st) /\ contents <> []).
Proof.
  intros API_KEY JSON_parse generateContent greaterThanZero asDraft clock st out.
  subst out. unfold Page.handleDiagnose.
  destruct (trim (Page.code st)) as [|c t] eqn:Et.
  - simpl. split; [reflexivity|]. split; [lia|]. intros contents [].
  - split; [discriminate|].
    pose proof (analyzeCode_world API_KEY JSON_parse generateContent
                  (Page.code st)) as (Hle & n & Heff).
    destruct (Gemini.analyzeCode API_KEY JSON_parse generateContent
                (Page.code st)) as [[parsed|msg] w];
      [destruct (Page.readDrafts greaterThanZero parsed)|]; simpl in *;
      (split; [exact Hle|]);
      intros contents Hin; rewrite Heff in Hin;
      apply fullSchedule_requests in Hin; subst contents;
      (split; [reflexivity|]);
      unfold Gemini.cleanCode; rewrite trim_replace_nbsp, Et; discriminate.
Qed.

(** X16. [handleDiagnose] never loses, changes or reorders a card: the
    collection afterwards is the old one followed by the cards created, all
    with fresh stats. On a submission that is not blank it ends "complete",
    holding the returned value and no error, when [analyzeCode] returns and
    lines 60-62 do not throw on the returned value; it ends "error", with a
    message, no result and no card created, when [analyzeCode] throws or
    when lines 60-62 throw (the value has a [generatedFlashcards] that
    passes the length test without being an array). The submitted code is
    left in the editor. *)
Theorem handleDiagnose_keeps_cards :
  forall API_KEY JSON_parse generateContent greaterThanZero asDraft clock st,
    let st' := fst (Page.handleDiagnose API_KEY JSON_parse generateContent
                      greaterThanZero asDraft clock st) in
    let analysis :=
      fst (Gemini.analyzeCode API_KEY JSON_parse generateContent
             (Page.code st)) in
    Page.code st' = Page.code st /\
    (exists created,
       Page.flashcards st' = Page.flashcards st ++ created /\
       Forall (fun c => stats c = App.freshStats) created /\
       (Page.dstatus (Page.diagnosisState st') = Page.Failed -> created = [])) /\
    (trim (Page.code st) <> [] ->
     (Page.dstatus (Page.diagnosisState st') = Page.Complete /\
      (exists d,
         analysis = Normal d /\
         Page.readDrafts greaterThanZero d <> Page.Raises /\
         Page.result (Page.diagnosisState st') = Some d) /\
      Page.error (Page.diagnosisState st') = None) \/
     (Page.dstatus (Page.diagnosisState st') = Page.Failed /\
      ((exists msg, analysis = Throw msg) \/
       (exists d, analysis = Normal d /\
                  Page.readDrafts greaterThanZero d = Page.Raises)) /\
      Page.result (Page.diagnosisState st') = None /\
      Page.error (Page.diagnosisState st') <> None /\
      Page.flashcards st' = Page.flashcards st)).
Proof.
  intros API_KEY JSON_parse generateContent greaterThanZero asDraft clock st
    st' analysis.
  subst st' analysis. unfold Page.handleDiagnose.
  destruct (trim (Page.code st)) as [|c t] eqn:Et.
  - simpl. split; [reflexivity|]. split.
    + exists []. rewrite app_nil_r. repeat split; auto.
    + intros H. contradiction.
  - destruct (Gemini.analyzeCode API_KEY JSON_parse generateContent
                (Page.code st)) as [[parsed|msg] w];
      [destruct (Page.readDrafts greaterThanZero parsed) as [|items|] eqn:Ed|];
      unfold Page.failed;
      cbn [fst snd Page.code Page.flashcards Page.diagnosisState Page.dstatus
           Page.result Page.error].
    + split; [reflexivity|]. split.
      * exists []. simpl. rewrite app_nil_r. repeat split; auto.
      * intros _. left. split; [reflexivity|]. split; [|reflexivity].
        exists parsed. rewrite Ed. repeat split. discriminate.
    + split; [reflexivity|]. split.
      * exists (App.newCards clock (map asDraft items)). rewrite ingest_eq.
        split; [reflexivity|]. split; [|discriminate].
        apply Forall_forall. intros card Hin.
        apply In_nth_error in Hin. destruct Hin as [i Hi].
        rewrite newCards_nth in Hi.
        destruct (nth_error (map asDraft items) i); simpl in Hi;
          [|discriminate].
        injection Hi as <-. reflexivity.
      * intros _. left. split; [reflexivity|]. split; [|reflexivity].
        exists parsed. rewrite Ed. repeat split. discriminate.
    + split; [reflexivity|]. split.
      * exists []. rewrite app_nil_r. repeat split; auto.
      * intros _. right. split; [reflexivity|].
        split; [right; exists parsed; auto|]. split; [reflexivity|].
        split; [discriminate|reflexivity].
    + split; [reflexivity|]. split.
      * exists []. rewrite app_nil_r. repeat split; auto.
      * intros _. right. split; [reflexivity|].
        split; [left; exists msg; reflexivity|]. split; [reflexivity|].
        split; [discriminate|reflexivity].
Qed.

(** A reply whose [generatedFlashcards] is the string "ab": [analyzeCode]
    returns it at the first attempt, [.map] throws, and the diagnosis ends
    in the error state with the collection as it was. *)
Example string_drafts_end_in_error :
  let out :=
    Page.handleDiagnose (Some (js "key")) Gemini.parseFragment
      (fun _ _ => Gemini.Resolved (Some Scenes.stringDraftsReply))
      (fun _ => false) (fun _ => Samples.draftA) (fun _ => 1700000000002%N)
      (Scenes.idlePage (js "print(x)") Samples.freshPair) in
  Gemini.parseFragment Scenes.stringDraftsReply =
    Some (Gemini.JObject
            [(js "generatedFlashcards", Gemini.JString (js "ab"))]) /\
  Gemini.requests (snd out) = 1 /\
  Page.dstatus (Page.diagnosisState (fst out)) = Page.Failed /\
  Page.result (Page.diagnosisState (fst out)) = None /\
  Page.flashcards (fst out) = Samples.freshPair.
Proof. vm_compute. repeat split. Qed.

(** ** [split], [join] and [HighlightedCode] *)

Lemma stripPrefix_Some (pre s rest : jsstring) :
  Gemini.stripPrefix pre s = Some rest -> s = pre ++ rest.
Proof.
  revert s. induction pre as [|p pre IH]; intros s H; simpl in *.
  - injection H as ->. reflexivity.
  - destruct s as [|c s]; [discriminate|].
    destruct (N.eqb_spec p c); [|discriminate].
    subst. f_equal. apply IH. exact H.
Qed.

Lemma splitFrom_nonempty (p : N) (sep cur s : jsstring) :
  Text.splitFrom p sep cur s <> [].
Proof. funelim (Text.splitFrom p sep cur s); simp splitFrom; discriminate. Qed.

Lemma join_cons (sep part : jsstring) (rest : list jsstring) :
  rest <> [] -> Text.join sep (part :: rest) = part ++ sep ++ Text.join sep rest.
Proof. destruct rest; [contradiction|reflexivity]. Qed.

Lemma splitFrom_join (p : N) (sep cur s : jsstring) :
  Text.join (p :: sep) (Text.splitFrom p sep cur s) = List.rev cur ++ s.
Proof.
  funelim (Text.splitFrom p sep cur s); simp splitFrom.
  - simpl. rewrite app_nil_r. reflexivity.
  - rewrite join_cons by apply splitFrom_nonempty.
    match goal with
    | IH : Text.join _ (Text.splitFrom _ _ _ _) = _ |- _ => rewrite IH
    end.
    match goal with
    | E : Gemini.stripPrefix _ _ = Some _ |- _ =>
        rewrite (stripPrefix_Some _ _ _ E)
    end.
    reflexivity.
  - match goal with
    | IH : Text.join _ (Text.splitFrom _ _ _ _) = _ |- _ => rewrite IH
    end.
    simpl. rewrite <- app_assoc. reflexivity.
Qed.

Lemma includes_cons (sub : jsstring) (c : N) (r : jsstring) :
  Text.includes sub (c :: r) =
  match Gemini.stripPrefix sub (c :: r) with
  | Some _ => true
  | None => Text.includes sub r
  end.
Proof. reflexivity. Qed.

Lemma splitFrom_absent (p : N) (sep cur s : jsstring) :
  Text.includes (p :: sep) s = false ->
  Text.splitFrom p sep cur s = [List.rev cur ++ s].
Proof.
  funelim (Text.splitFrom p sep cur s); simp splitFrom; intros Hinc.
  - rewrite app_nil_r. reflexivity.
  - rewrite includes_cons in Hinc.
    match goal with
    | E : Gemini.stripPrefix _ _ = Some _ |- _ => rewrite E in Hinc
    end.
    discriminate.
  - rewrite includes_cons in Hinc.
    match goal with
    | E : Gemini.stripPrefix _ _ = None |- _ => rewrite E in Hinc
    end.
    match goal with
    | IH : _ -> Text.splitFrom _ _ _ _ = _ |- _ => rewrite (IH Hinc)
    end.
    simpl. rewrite <- app_assoc. reflexivity.
Qed.

Lemma splitFrom_present (p : N) (sep cur s : jsstring) :
  Text.includes (p :: sep) s = true ->
  2 <= length (Text.splitFrom p sep cur s).
Proof.
  funelim (Text.splitFrom p sep cur s); simp splitFrom; intros Hinc.
  - discriminate.
  - pose proof (splitFrom_nonempty p sep [] rest) as Hne.
    destruct (Text.splitFrom p sep [] rest); [contradiction|simpl; lia].
  - rewrite includes_cons in Hinc.
    match goal with
    | E : Gemini.stripPrefix _ _ = None |- _ => rewrite E in Hinc
    end.
    match goal with
    | IH : _ -> 2 <= _ |- _ => exact (IH Hinc)
    end.
Qed.

(** [split] and [join] are inverse: joining the parts of
    [s.split(sep)] with [sep] gives [s] back, for every separator. For a
    non-empty separator the split has one part, [s] itself, when [sep] does
    not occur in [s], and at least two parts when it does. *)
Lemma split_join_roundtrip :
  forall sep s,
    Text.join sep (Text.split sep s) = s /\
    (sep <> [] -> Text.includes sep s = false -> Text.split sep s = [s]) /\
    (sep <> [] -> Text.includes sep s = true -> 2 <= length (Text.split sep s)).
Proof.
  intros [|p sep] s; unfold Text.split.
  - split; [|split; intros H; contradiction].
    induction s as [|c s IH]; simpl; [reflexivity|].
    destruct s as [|d s]; [reflexivity|].
    simpl in *. rewrite IH. reflexivity.
  - split; [apply (splitFrom_join p sep [] s)|].
    split; intros _ H.
    + apply (splitFrom_absent p sep [] s H).
    + apply (splitFrom_present p sep [] s H).
Qed.

Lemma displayedText_app (a b : list Highlight.Segment) :
  Highlight.displayedText (a ++ b) =
  Highlight.displayedText a ++ Highlight.displayedText b.
Proof.
  unfold Highlight.displayedText. rewrite map_app, concat_app. reflexivity.
Qed.

Lemma rendered_parts (h : jsstring) (parts : list jsstring) (k n : nat) :
  n = k + length parts ->
  let segs :=
    concat (App.mapi_from
              (fun part i =>
                 if (Z.of_nat i <? Z.of_nat n - 1)%Z
                 then [Highlight.Plain part; Highlight.Mark h]
                 else [Highlight.Plain part]) k parts) in
  Highlight.displayedText segs = Text.join h parts /\
  filter Highlight.isMark segs = repeat (Highlight.Mark h) (length parts - 1).
Proof.
  cbv zeta.
  set (f := fun (part : jsstring) (i : nat) =>
              if (Z.of_nat i <? Z.of_nat n - 1)%Z
              then [Highlight.Plain part; Highlight.Mark h]
              else [Highlight.Plain part]).
  revert k. induction parts as [|part rest IH]; intros k Hn.
  - split; reflexivity.
  - simpl in Hn.
    destruct (IH (S k)) as [Htext Hmarks]; [lia|].
    change (App.mapi_from f k (part :: rest))
      with (f part k :: App.mapi_from f (S k) rest).
    change (concat (f part k :: App.mapi_from f (S k) rest))
      with (f part k ++ concat (App.mapi_from f (S k) rest)).
    rewrite displayedText_app, filter_app, Htext, Hmarks.
    unfold f at 1 2.
    destruct rest as [|part2 rest]; simpl in Hn.
    + destruct (Z.ltb_spec (Z.of_nat k) (Z.of_nat n - 1)); [lia|].
      unfold Highlight.displayedText. simpl. rewrite !app_nil_r.
      split; reflexivity.
    + destruct (Z.ltb_spec (Z.of_nat k) (Z.of_nat n - 1)); [|lia].
      rewrite (join_cons h part (part2 :: rest)) by discriminate.
      unfold Highlight.displayedText. simpl. rewrite app_nil_r, Nat.sub_0_r.
      rewrite <- app_assoc. split; reflexivity.
Qed.

(** X17. [HighlightedCode] never alters the text it displays: its segments,
    read one after the other, are the code. Every highlighted span holds
    the highlight text, which is then non-empty and occurs in the code; and
    when such a highlight is given there is at least one span, one per cut
    of [code.split(highlight)]. *)
Theorem HighlightedCode_shows_the_code :
  forall code highlight,
    let segs := Highlight.HighlightedCode code highlight in
    Highlight.displayedText segs = code /\
    (forall text, In (Highlight.Mark text) segs ->
       highlight = Some text /\ text <> [] /\ Text.includes text code = true) /\
    (forall h, highlight = Some h -> h <> [] -> Text.includes h code = true ->
       1 <= length (filter Highlight.isMark segs) /\
       S (length (filter Highlight.isMark segs)) = length (Text.split h code)).
Proof.
  intros code highlight. cbv zeta. unfold Highlight.HighlightedCode.
  assert (Hplain : Highlight.displayedText [Highlight.Plain code] = code).
  { unfold Highlight.displayedText. simpl. apply app_nil_r. }
  destruct highlight as [[|h hs]|].
  - split; [exact Hplain|]. split.
    + intros text [H|[]]. discriminate.
    + intros h Heq Hne. injection Heq as <-. contradiction.
  - destruct (Text.includes (h :: hs) code) eqn:Einc; simpl negb; cbv iota.
    + unfold App.mapi.
      destruct (rendered_parts (h :: hs) (Text.split (h :: hs) code) 0
                  (length (Text.split (h :: hs) code)) eq_refl)
        as [Htext Hmarks].
      pose proof (splitFrom_present h hs [] code Einc) as Hlen.
      fold (Text.split (h :: hs) code) in Hlen.
      split.
      * rewrite Htext. apply (splitFrom_join h hs [] code).
      * split.
        -- intros text Hin.
           assert (Hm : In (Highlight.Mark text)
                          (repeat (Highlight.Mark (h :: hs))
                             (length (Text.split (h :: hs) code) - 1))).
           { rewrite <- Hmarks. apply filter_In. split; [exact Hin|reflexivity]. }
           apply repeat_spec in Hm. injection Hm as ->.
           split; [reflexivity|]. split; [discriminate|exact Einc].
        -- intros h' Heq _ _. injection Heq as <-.
           rewrite Hmarks, repeat_length. lia.
    + split; [exact Hplain|]. split.
      * intros text [H|[]]. discriminate.
      * intros h' Heq _ Hinc. injection Heq as <-. congruence.
  - split; [exact Hplain|]. split.
    + intros text [H|[]]. discriminate.
    + intros h H. discriminate.
Qed.

Lemma HighlightedCode_shows_the_code_witness :
  Highlight.HighlightedCode (js "if x = 1:") (Some (js "=")) =
    [Highlight.Plain (js "if x "); Highlight.Mark (js "=");
     Highlight.Plain (js " 1:")] /\
  1 <= length (filter Highlight.isMark
                 (Highlight.HighlightedCode (js "if x = 1:") (Some (js "=")))).
Proof.
  split; [vm_compute; reflexivity|].
  apply (proj2 (proj2 (HighlightedCode_shows_the_code (js "if x = 1:")
                         (Some (js "=")))) (js "=") eq_refl).
  - discriminate.
  - vm_compute. reflexivity.
Defined.

(** ** The editor *)

Lemma substring_prefix (value : jsstring) (n : nat) :
  Text.substring value 0 n = firstn n value.
Proof.
  unfold Text.substring. simpl Nat.min at 1 3.
  rewrite Nat.max_0_l, Nat.min_0_l, Nat.sub_0_r. simpl skipn.
  destruct (Nat.le_ge_cases n (length value)) as [H|H].
  - rewrite Nat.min_l by exact H. reflexivity.
  - rewrite Nat.min_r by exact H.
    rewrite firstn_all, firstn_all2 by exact H. reflexivity.
Qed.

Lemma substringFrom_suffix (value : jsstring) (n : nat) :
  Text.substringFrom value n = skipn n value.
Proof.
  unfold Text.substringFrom.
  destruct (Nat.le_ge_cases n (length value)) as [H|H].
  - rewrite Nat.min_l by exact H. reflexivity.
  - rewrite Nat.min_r by exact H.
    rewrite skipn_all, skipn_all2 by exact H. reflexivity.
Qed.

(** X18. Pressing Tab with the selection from [selectionStart] to
    [selectionEnd] (inside the text) replaces the selected text by four
    spaces: the text before the selection and the text after it are kept,
    the length changes by 4 minus the selection length, and the caret is
    put right after the spaces. With an empty selection, removing the four
    spaces gives the old text back. *)
Theorem handleTab_inserts_spaces :
  forall value selectionStart selectionEnd,
    selectionStart <= selectionEnd ->
    selectionEnd <= length value ->
    let newValue := fst (Editor.handleTab value selectionStart selectionEnd) in
    let caret := snd (Editor.handleTab value selectionStart selectionEnd) in
    newValue = firstn selectionStart value ++ js "    "
                 ++ skipn selectionEnd value /\
    caret = selectionStart + 4 /\
    length newValue + (selectionEnd - selectionStart) = length value + 4 /\
    firstn selectionStart newValue = firstn selectionStart value /\
    skipn caret newValue = skipn selectionEnd value /\
    (selectionStart = selectionEnd ->
     firstn selectionStart newValue ++ skipn caret newValue = value).
Proof.
  intros value a b Hab Hb newValue caret. subst newValue caret.
  unfold Editor.handleTab. cbn [fst snd].
  rewrite substring_prefix, substringFrom_suffix.
  assert (Hlen : length (firstn a value) = a)
    by (apply firstn_length_le; lia).
  assert (Hfirst : firstn a (firstn a value ++ Editor.spaces ++ skipn b value)
                   = firstn a value).
  { rewrite firstn_app, Hlen, Nat.sub_diag. simpl firstn at 2.
    rewrite app_nil_r. rewrite firstn_firstn, Nat.min_id. reflexivity. }
  assert (Hskip : skipn (a + length Editor.spaces)
                    (firstn a value ++ Editor.spaces ++ skipn b value)
                  = skipn b value).
  { rewrite skipn_app, Hlen.
    rewrite (skipn_all2 (firstn a value)) by (rewrite Hlen; lia).
    replace (a + length Editor.spaces - a) with 4 by (simpl; lia).
    reflexivity. }
  split; [reflexivity|]. split; [reflexivity|].
  split.
  - rewrite !length_app, Hlen, length_skipn. simpl. lia.
  - split; [exact Hfirst|]. split; [exact Hskip|].
    intros ->. rewrite Hfirst, Hskip. apply firstn_skipn.
Qed.

Lemma handleTab_inserts_spaces_witness :
  fst (Editor.handleTab (js "if x:y") 5 5) = js "if x:    y" /\
  snd (Editor.handleTab (js "if x:y") 5 5) = 9.
Proof.
  destruct (handleTab_inserts_spaces (js "if x:y") 5 5) as (Hv & Hc & _).
  - lia.
  - simpl. lia.
  - split; [rewrite Hv; reflexivity|exact Hc].
Defined.

Lemma splitFrom_single_length (p : N) (cur s : jsstring) :
  length (Text.splitFrom p [] cur s) = S (length (filter (N.eqb p) s)).
Proof.
  funelim (Text.splitFrom p [] cur s); simp splitFrom.
  - reflexivity.
  - match goal with
    | E : Gemini.stripPrefix _ _ = Some _ |- _ =>
        pose proof E as Hs; simpl in Hs
    end.
    destruct (N.eqb p c) eqn:Ep; [|discriminate].
    injection Hs as <-. simpl. rewrite Ep. simpl. f_equal.
    match goal with
    | IH : length _ = _ |- _ => exact IH
    end.
  - match goal with
    | E : Gemini.stripPrefix _ _ = None |- _ =>
        pose proof E as Hs; simpl in Hs
    end.
    destruct (N.eqb p c) eqn:Ep; [discriminate|].
    simpl. rewrite Ep.
    match goal with
    | IH : length _ = _ |- _ => exact IH
    end.
Qed.

(** X19. The line count of the editor is one more than the number of line
    feeds in the text (so 1 for the empty text, the value [handleClear]
    sets), putting a line feed between two texts adds their line counts,
    and the gutter shows at least 15 rows and at least one row per line. *)
Theorem lineCount_counts_line_feeds :
  forall value,
    Editor.lineCount value = S (length (filter (N.eqb 10) value)) /\
    (forall a b, value = a ++ 10%N :: b ->
       Editor.lineCount value = Editor.lineCount a + Editor.lineCount b) /\
    15 <= Editor.gutterRows value /\
    Editor.lineCount value <= Editor.gutterRows value.
Proof.
  assert (Hcount : forall v,
            Editor.lineCount v = S (length (filter (N.eqb 10) v))).
  { intros v. unfold Editor.lineCount, Text.split.
    apply splitFrom_single_length. }
  intros value. split; [apply Hcount|].
  split.
  - intros a b ->. rewrite !Hcount, filter_app, length_app. simpl. lia.
  - unfold Editor.gutterRows. lia.
Qed.

Lemma escapeHtml_single_pass (part : jsstring) :
  Editor.escapeHtml part = flat_map Editor.escapeUnit part.
Proof.
  unfold Editor.escapeHtml, Text.replaceAll.
  induction part as [|c part IH]; [reflexivity|].
  simpl flat_map at 3. rewrite !flat_map_app, IH.
  simpl flat_map at 4. f_equal.
  unfold Editor.escapeUnit.
  destruct (N.eqb_spec c 38) as [->|H38]; [reflexivity|].
  simpl. rewrite app_nil_r.
  destruct (N.eqb_spec c 60) as [->|H60]; [reflexivity|].
  simpl.
  destruct (N.eqb_spec c 62) as [->|H62]; reflexivity.
Qed.

Lemma escapeUnit_inj (c d : N) (x y : jsstring) :
  Editor.escapeUnit c ++ x = Editor.escapeUnit d ++ y -> c = d /\ x = y.
Proof.
  unfold Editor.escapeUnit.
  destruct (N.eqb_spec c 38) as [->|Hc38];
    [|destruct (N.eqb_spec c 60) as [->|Hc60];
      [|destruct (N.eqb_spec c 62) as [->|Hc62]]];
    (destruct (N.eqb_spec d 38) as [->|Hd38];
     [|destruct (N.eqb_spec d 60) as [->|Hd60];
       [|destruct (N.eqb_spec d 62) as [->|Hd62]]]);
    simpl; intros H; try discriminate H;
    try (injection H as H; subst; auto; fail);
    try (injection H as H1 H2; subst; try contradiction; auto).
Qed.

(** X20. The escaping of the highlighter works as one pass over the text
    (ampersand, less-than and greater-than become their entities, every
    other code unit is kept); its output holds no angle bracket; a text
    without these three characters is unchanged; and two different texts
    never escape to the same output. *)
Theorem escapeHtml_is_safe :
  forall part,
    Editor.escapeHtml part = flat_map Editor.escapeUnit part /\
    ~ In 60%N (Editor.escapeHtml part) /\
    ~ In 62%N (Editor.escapeHtml part) /\
    (~ In 38%N part -> ~ In 60%N part -> ~ In 62%N part ->
     Editor.escapeHtml part = part) /\
    (forall other, Editor.escapeHtml other = Editor.escapeHtml part ->
       other = part).
Proof.
  intros part.
  assert (Hno : forall ch, ch = 60%N \/ ch = 62%N ->
            forall s, ~ In ch (flat_map Editor.escapeUnit s)).
  { intros ch Hch s Hin. apply in_flat_map in Hin.
    destruct Hin as (c & _ & Hc). unfold Editor.escapeUnit in Hc.
    destruct (N.eqb_spec c 38);
      [|destruct (N.eqb_spec c 60); [|destruct (N.eqb_spec c 62)]];
      simpl in Hc; destruct Hch; subst; intuition (try discriminate; congruence). }
  split; [apply escapeHtml_single_pass|].
  rewrite escapeHtml_single_pass.
  split; [apply Hno; auto|]. split; [apply Hno; auto|].
  split.
  - intros H38 H60 H62. induction part as [|c part IH]; [reflexivity|].
    simpl in *. unfold Editor.escapeUnit at 1.
    destruct (N.eqb_spec c 38); [intuition|].
    destruct (N.eqb_spec c 60); [intuition|].
    destruct (N.eqb_spec c 62); [intuition|].
    simpl. f_equal. apply IH; intuition.
  - intros other. rewrite escapeHtml_single_pass.
    revert other. induction part as [|c part IH]; intros [|d other] H.
    + reflexivity.
    + simpl in H. unfold Editor.escapeUnit in H.
      destruct (N.eqb d 38), (N.eqb d 60), (N.eqb d 62); discriminate.
    + simpl in H. unfold Editor.escapeUnit in H.
      destruct (N.eqb c 38), (N.eqb c 60), (N.eqb c 62); discriminate.
    + simpl in H. apply escapeUnit_inj in H. destruct H as [-> H].
      f_equal. apply IH. exact H.
Qed.

(** ** Ids across ingestions, and going round the review *)

(** X21. Distinct ids stay distinct across an ingestion made at a
    timestamp that no existing card carries: when the ids of the collection
    are pairwise distinct and each was made by the id template at a
    timestamp the clock does not return during this ingestion, the ids of
    the collection after it are pairwise distinct too. *)
Theorem ingest_keeps_ids_distinct :
  forall clock drafts prev,
    NoDup (map id prev) ->
    (forall c, In c prev ->
       exists t j, id c = App.cardId t j /\ forall i, clock i <> t) ->
    NoDup (map id (App.ingest clock (Some drafts) prev)).
Proof.
  intros clock drafts prev Hnd Hold.
  rewrite ingest_eq, map_app.
  apply NoDup_app; [exact Hnd|apply newCards_ids_NoDup|].
  intros x Hx Hnew.
  apply in_map_iff in Hx. destruct Hx as (c & <- & Hc).
  destruct (Hold c Hc) as (t & j & Hid & Hclock).
  apply In_nth_error in Hnew. destruct Hnew as [i Hi].
  rewrite nth_error_map, newCards_nth in Hi.
  destruct (nth_error drafts i); simpl in Hi; [|discriminate].
  injection Hi as Hi. rewrite Hid in Hi. apply cardId_inj in Hi.
  destruct Hi as [Ht _]. exact (Hclock i Ht).
Qed.

Lemma ingest_keeps_ids_distinct_witness :
  NoDup (map id (App.ingest (fun _ => 1700000000001%N)
                   (Some [Samples.draftA; Samples.draftB])
                   Samples.freshPair)).
Proof.
  apply ingest_keeps_ids_distinct.
  - repeat constructor; simpl; intuition discriminate.
  - intros c [<-|[<-|[]]].
    + exists 1700000000000%N, 0. split; [reflexivity|discriminate].
    + exists 1700000000000%N, 1. split; [reflexivity|discriminate].
Defined.

Lemma nextIndex_mod (len i : nat) :
  i < len -> Review.nextIndex i len = S i mod len.
Proof.
  intros Hi. rewrite nextIndex_spec.
  destruct (Nat.ltb_spec (S i) len) as [Hlt|Hge].
  - symmetry. apply Nat.mod_small. exact Hlt.
  - assert (S i = len) as -> by lia. symmetry. apply Nat.Div0.mod_same.
Qed.

(** X22. Advancing goes round the active cards: starting from a valid
    pointer [i] among [len] active cards, [k] presses of "next" (the active
    list being unchanged) lead to the pointer (i + k) mod len; so every
    active card is reached, and after [len] presses the pointer is back at
    [i]. *)
Theorem nextIndex_goes_round :
  forall len i k,
    i < len ->
    Nat.iter k (fun index => Review.nextIndex index len) i = (i + k) mod len /\
    Nat.iter len (fun index => Review.nextIndex index len) i = i /\
    (forall target, target < len ->
       exists presses, presses < len /\
         Nat.iter presses (fun index => Review.nextIndex index len) i = target).
Proof.
  intros len i k Hi.
  assert (Hiter : forall n,
            Nat.iter n (fun index => Review.nextIndex index len) i
            = (i + n) mod len).
  { induction n as [|n IH]; simpl.
    - rewrite Nat.add_0_r. symmetry. apply Nat.mod_small. exact Hi.
    - rewrite IH. rewrite nextIndex_mod by (apply Nat.mod_upper_bound; lia).
      replace (i + S n) with (S (i + n)) by lia.
      change (S ((i + n) mod len)) with (1 + (i + n) mod len).
      change (S (i + n)) with (1 + (i + n)).
      rewrite Nat.Div0.add_mod_idemp_r. reflexivity. }
  split; [apply Hiter|]. split.
  - rewrite Hiter.
    rewrite <- (Nat.mul_1_l len) at 1. rewrite Nat.Div0.mod_add.
    apply Nat.mod_small. exact Hi.
  - intros target Ht.
    destruct (Nat.le_gt_cases i target) as [Hle|Hgt].
    + exists (target - i). split; [lia|]. rewrite Hiter.
      replace (i + (target - i)) with target by lia.
      apply Nat.mod_small. exact Ht.
    + exists (len - i + target). split; [lia|]. rewrite Hiter.
      replace (i + (len - i + target)) with (target + 1 * len) by lia.
      rewrite Nat.Div0.mod_add. apply Nat.mod_small. exact Ht.
Qed.

Lemma nextIndex_goes_round_witness :
  Nat.iter 5 (fun index => Review.nextIndex index 3) 2 = 1.
Proof.
  rewrite (proj1 (nextIndex_goes_round 3 2 5 ltac:(lia))). reflexivity.
Defined.

(** X23. No run of review actions adds, removes, reorders or renames a
    card, or changes a card's texts: ids and card texts are, position by
    position, what they were when the run started. *)
Theorem run_keeps_ids_and_texts :
  forall actions s s',
    Review.run s actions = Some s' ->
    map id (Review.cards s') = map id (Review.cards s) /\
    map data (Review.cards s') = map data (Review.cards s) /\
    length (Review.cards s') = length (Review.cards s).
Proof.
  assert (Hstep : forall s a s',
            Review.step s a = Some s' ->
            map id (Review.cards s') = map id (Review.cards s) /\
            map data (Review.cards s') = map data (Review.cards s)).
  { intros s a s' H. unfold Review.step in H.
    destruct a, (Review.showResult s); try discriminate.
    - destruct (Review.render s); try discriminate.
      injection H as <-. split; reflexivity.
    - unfold Review.handleCheck in H.
      destruct (Review.render s) as [| |card]; try discriminate.
      injection H as <-. unfold Review.resetOnChange. simpl.
      match goal with |- context [if ?b then _ else _] => destruct b end;
        simpl; apply handleUpdateCard_ids.
    - unfold Review.handleNext in H.
      destruct (Review.render s); try discriminate.
      injection H as <-. split; reflexivity. }
  induction actions as [|a actions IH]; intros s s' Hrun; simpl in Hrun.
  - injection Hrun as <-. repeat split; reflexivity.
  - destruct (Review.step s a) as [s1|] eqn:E; [|discriminate].
    destruct (Hstep s a s1 E) as [H1 H2].
    destruct (IH s1 s' Hrun) as (H3 & H4 & H5).
    split; [congruence|]. split; [congruence|].
    rewrite H5. rewrite <- (length_map id), <- (length_map id (Review.cards s)).
    rewrite H1. reflexivity.
Qed.

Lemma run_keeps_ids_and_texts_witness :
  exists s',
    Review.run (Review.open Samples.freshPair) Samples.reviewRounds = Some s' /\
    map id (Review.cards s') = [js "1700000000000-0"; js "1700000000000-1"].
Proof.
  destruct (Review.run (Review.open Samples.freshPair) Samples.reviewRounds)
    as [s'|] eqn:E; [|vm_compute in E; discriminate E].
  exists s'. split; [reflexivity|].
  rewrite (proj1 (run_keeps_ids_and_texts Samples.reviewRounds
                    (Review.open Samples.freshPair) s' E)).
  reflexivity.
Defined.
